(** * Paralympics REST API

  A shallow embedding of the Flask application in [paralympics/models.py],
  [paralympics/routes.py] and [paralympics/error_handlers.py]: the three
  tables, the twelve routes, the error handlers, and the parts of Flask,
  Werkzeug and SQLAlchemy that decide what a request returns.

  Python exceptions are values of [exn] carried by the error monad
  [result]; the database is an explicit state threaded through every view
  function; the clock and the salt drawn by [generate_password_hash] are
  inputs of a request. *)

From Stdlib Require Import ZArith String List Bool Lia Ascii DecimalString.
Import ListNotations.
Local Open Scope string_scope.
Local Open Scope Z_scope.
Set Warnings "-register-all".

(* ================================================================= *)
(** ** Python values, exceptions and the error monad *)

Module Py.

(** A parsed JSON document, as [request.get_json()] hands it to a view.
    [JObj] lists the items of the resulting [dict] (keys are distinct);
    JSON numbers are integers here. *)
Inductive json : Type :=
| JNull
| JBool (b : bool)
| JNum (n : Z)
| JStr (s : string)
| JArr (items : list json)
| JObj (fields : list (string * json)).

(** Python truthiness: [None], [False], [0], [""], [[]] and [{}] are falsy. *)
Definition truthy (j : json) : bool :=
  match j with
  | JNull => false
  | JBool b => b
  | JNum n => negb (n =? 0)
  | JStr s => negb (s =? "")%string
  | JArr items => match items with [] => false | _ => true end
  | JObj fields => match fields with [] => false | _ => true end
  end.

Fixpoint assoc {A : Type} (k : string) (l : list (string * A)) : option A :=
  match l with
  | [] => None
  | (k', v) :: tl => if (k' =? k)%string then Some v else assoc k tl
  end.

(** [str(int)]. *)
Definition str_of_int (z : Z) : string := NilZero.string_of_int (Z.to_int z).

(** werkzeug.exceptions: the HTTP errors this application can meet. *)
Inductive http_error : Type :=
| BadRequest | Unauthorized | NotFound | MethodNotAllowed
| Conflict | UnsupportedMediaType | InternalServerError.

Definition http_code (h : http_error) : Z :=
  match h with
  | BadRequest => 400 | Unauthorized => 401 | NotFound => 404
  | MethodNotAllowed => 405 | Conflict => 409
  | UnsupportedMediaType => 415 | InternalServerError => 500
  end.

Definition http_name (h : http_error) : string :=
  match h with
  | BadRequest => "Bad Request" | Unauthorized => "Unauthorized"
  | NotFound => "Not Found" | MethodNotAllowed => "Method Not Allowed"
  | Conflict => "Conflict" | UnsupportedMediaType => "Unsupported Media Type"
  | InternalServerError => "Internal Server Error"
  end.

(** The exceptions raised by the code and by the libraries it calls. *)
Inductive exn : Type :=
| HTTPException (h : http_error) (description : string)
| NoResultFound
| MultipleResultsFound
| InvalidRequestError (msg : string)
| IntegrityError (msg : string)
| InterfaceError
| ValidationError (messages : json)
| AttributeError (msg : string)
| TypeError (msg : string)
| ValueError (msg : string)
| OverflowError (msg : string)
| ArgumentError (msg : string).

(** Exception classes, for [isinstance], [except] clauses and Flask's
    handler lookup. *)
Inductive exc_class : Type :=
| C_http (h : http_error)
| C_HTTPException
| C_NoResultFound | C_MultipleResultsFound | C_InvalidRequestError
| C_IntegrityError | C_InterfaceError | C_DBAPIError | C_SQLAlchemyError
| C_ValidationError | C_MarshmallowError
| C_AttributeError
| C_TypeError | C_ValueError | C_OverflowError | C_ArithmeticError
| C_ArgumentError
| C_Exception.

Definition http_error_eqb (a b : http_error) : bool :=
  http_code a =? http_code b.

Definition exc_class_eqb (a b : exc_class) : bool :=
  match a, b with
  | C_http h, C_http h' => http_error_eqb h h'
  | C_HTTPException, C_HTTPException
  | C_NoResultFound, C_NoResultFound
  | C_MultipleResultsFound, C_MultipleResultsFound
  | C_InvalidRequestError, C_InvalidRequestError
  | C_IntegrityError, C_IntegrityError
  | C_InterfaceError, C_InterfaceError
  | C_DBAPIError, C_DBAPIError
  | C_SQLAlchemyError, C_SQLAlchemyError
  | C_ValidationError, C_ValidationError
  | C_MarshmallowError, C_MarshmallowError
  | C_AttributeError, C_AttributeError
  | C_TypeError, C_TypeError
  | C_ValueError, C_ValueError
  | C_OverflowError, C_OverflowError
  | C_ArithmeticError, C_ArithmeticError
  | C_ArgumentError, C_ArgumentError
  | C_Exception, C_Exception => true
  | _, _ => false
  end.

(** [type(e).__mro__], up to [Exception]. *)
Definition mro (e : exn) : list exc_class :=
  match e with
  | HTTPException h _ => [C_http h; C_HTTPException; C_Exception]
  | NoResultFound =>
      [C_NoResultFound; C_InvalidRequestError; C_SQLAlchemyError; C_Exception]
  | MultipleResultsFound =>
      [C_MultipleResultsFound; C_InvalidRequestError; C_SQLAlchemyError;
       C_Exception]
  | InvalidRequestError _ =>
      [C_InvalidRequestError; C_SQLAlchemyError; C_Exception]
  | IntegrityError _ =>
      [C_IntegrityError; C_DBAPIError; C_SQLAlchemyError; C_Exception]
  | InterfaceError =>
      [C_InterfaceError; C_DBAPIError; C_SQLAlchemyError; C_Exception]
  | ValidationError _ => [C_ValidationError; C_MarshmallowError; C_Exception]
  | AttributeError _ => [C_AttributeError; C_Exception]
  | TypeError _ => [C_TypeError; C_Exception]
  | ValueError _ => [C_ValueError; C_Exception]
  | OverflowError _ => [C_OverflowError; C_ArithmeticError; C_Exception]
  | ArgumentError _ => [C_ArgumentError; C_SQLAlchemyError; C_Exception]
  end.

Definition isinstance (e : exn) (c : exc_class) : bool :=
  existsb (exc_class_eqb c) (mro e).

(** The outcome of running Python code: a value, or a raised exception. *)
Inductive result (A : Type) : Type :=
| Ok (a : A)
| Raise (e : exn).
Arguments Ok {A} a.
Arguments Raise {A} e.

Definition bind {A B : Type} (c : result A) (k : A -> result B) : result B :=
  match c with
  | Ok a => k a
  | Raise e => Raise e
  end.

(** [try: c  except cls as e: h e]. *)
Definition try_except {A : Type} (c : result A) (cls : exc_class)
    (h : exn -> result A) : result A :=
  match c with
  | Ok a => Ok a
  | Raise e => if isinstance e cls then h e else Raise e
  end.

(** [d.get(k)]: the value, [None] when the key is absent, and an
    [AttributeError] when [d] is not a dict. *)
Definition get (d : json) (k : string) : result json :=
  match d with
  | JObj fields =>
      Ok (match assoc k fields with Some v => v | None => JNull end)
  | _ => Raise (AttributeError "object has no attribute 'get'")
  end.

End Py.
Export Py.

Declare Scope py_scope.
Delimit Scope py_scope with py.
Notation "x <- c ;; k" := (Py.bind c (fun x => k))
(at level 61, c at next level, right associativity) : py_scope.
Notation "' p <- c ;; k" := (Py.bind c (fun p => k))
(at level 61, p pattern, c at next level, right associativity) : py_scope.
Local Open Scope py_scope.

(* ================================================================= *)
(** ** models.py: the three mapped classes *)

Module Models.

(** A value held by a column, or bound to a query parameter. *)
Inductive sqlval : Type :=
| SNull
| SInt (n : Z)
| SText (s : string).

Definition of_opt_text (o : option string) : sqlval :=
  match o with Some s => SText s | None => SNull end.

Definition of_opt_int (o : option Z) : sqlval :=
  match o with Some n => SInt n | None => SNull end.

(** What [mapped_column] declares for one attribute.  A column is
    nullable when it says [nullable=True]; without the argument a column
    annotated [Mapped[...]] (no [Optional]) is NOT NULL, and so is a
    primary key. *)
Record Column (R : Type) : Type := mapped_column {
  col_name : string;
  col_value : R -> sqlval;
  primary_key : bool;
  unique : bool;
  nullable : bool
}.
Arguments mapped_column {R}.
Arguments col_name {R}.
Arguments col_value {R}.
Arguments primary_key {R}.
Arguments unique {R}.
Arguments nullable {R}.

(** class Region *)
Record Region : Type := {
  Region_NOC : string;
  Region_region : string;
  Region_notes : option string
}.

Definition Region_columns : list (Column Region) :=
  [ mapped_column "NOC" (fun r => SText (Region_NOC r)) true false false;
    mapped_column "region" (fun r => SText (Region_region r)) false false false;
    mapped_column "notes" (fun r => of_opt_text (Region_notes r))
      false false true ].

(** class Event.  [Event_id] is [None] on an object that has not been
    flushed yet (the key is then assigned by the database). *)
Record Event : Type := {
  Event_id : option Z;
  Event_type : string;
  Event_year : Z;
  Event_country : string;
  Event_host : string;
  Event_NOC : option string;
  Event_start : option string;
  Event_end : option string;
  Event_duration : option Z;
  Event_disabilities_included : option string;
  Event_countries : option Z;
  Event_events : option Z;
  Event_sports : option Z;
  Event_participants_m : option Z;
  Event_participants_f : option Z;
  Event_participants : option Z;
  Event_highlights : option string
}.

Definition Event_columns : list (Column Event) :=
  [ mapped_column "id" (fun e => of_opt_int (Event_id e)) true false false;
    mapped_column "type" (fun e => SText (Event_type e)) false false false;
    mapped_column "year" (fun e => SInt (Event_year e)) false false false;
    mapped_column "country" (fun e => SText (Event_country e))
      false false false;
    mapped_column "host" (fun e => SText (Event_host e)) false false false;
    mapped_column "NOC" (fun e => of_opt_text (Event_NOC e)) false false false;
    mapped_column "start" (fun e => of_opt_text (Event_start e))
      false false true;
    mapped_column "end" (fun e => of_opt_text (Event_end e)) false false true;
    mapped_column "duration" (fun e => of_opt_int (Event_duration e))
      false false true;
    mapped_column "disabilities_included"
      (fun e => of_opt_text (Event_disabilities_included e)) false false true;
    mapped_column "countries" (fun e => of_opt_int (Event_countries e))
      false false true;
    mapped_column "events" (fun e => of_opt_int (Event_events e))
      false false true;
    mapped_column "sports" (fun e => of_opt_int (Event_sports e))
      false false true;
    mapped_column "participants_m"
      (fun e => of_opt_int (Event_participants_m e)) false false true;
    mapped_column "participants_f"
      (fun e => of_opt_int (Event_participants_f e)) false false true;
    mapped_column "participants" (fun e => of_opt_int (Event_participants e))
      false false true;
    mapped_column "highlights" (fun e => of_opt_text (Event_highlights e))
      false false true ].

(** class User *)
Record User : Type := {
  User_id : Z;
  User_email : string;
  User_password_hash : string
}.

Definition User_columns : list (Column User) :=
  [ mapped_column "id" (fun u => SInt (User_id u)) true false false;
    mapped_column "email" (fun u => SText (User_email u)) false true false;
    mapped_column "password_hash" (fun u => SText (User_password_hash u))
      false true false ].

(** The name of the primary-key column of a mapped class. *)
Definition primary_key_of {R : Type} (cols : list (Column R))
  : option string :=
  option_map col_name (find primary_key cols).

Definition column {R : Type} (cols : list (Column R)) (attr : string)
  : option (Column R) :=
  find (fun c => (col_name c =? attr)%string) cols.

(** The persistent store: one list of rows per table, and whether the
    connection enforces foreign keys (SQLite's [PRAGMA foreign_keys]). *)
Record Db : Type := {
  Db_region : list Region;
  Db_event : list Event;
  Db_user : list User;
  Db_foreign_keys : bool
}.

End Models.
Export Models.

(* ================================================================= *)
(** ** Library functions taken as parameters

    The digest and signature primitives, SQLite's text-to-number
    conversion and the Marshmallow schemas are used by the application but
    defined outside it; every result below holds for all of them. *)

(** The claims of a token: the user identifier, the expiry and the issue
    time (seconds). *)
Record claims : Type := {
  sub : Z;
  exp : Z;
  iat : Z
}.

(** The value of an [Authorization] header, as the token decoder sees it:
    a string that does not parse as a token, or a payload with its
    signature. *)
Inductive token : Type :=
| Malformed (raw : string)
| Signed (payload : claims) (signature : string).

Class Libraries : Type := {
  (** SHA-256 of a byte string. *)
  sha256 : string -> string;
  (** The key derivation [hashlib.scrypt] / [hashlib.pbkdf2_hmac] performs
      once HMAC has turned the password into a key block: it takes the
      method string, the salt and that block, and returns the hex digest. *)
  kdf : string -> string -> string -> string;
  (** The signature of a token payload under a secret key, and the text
      of a token as it is sent to a client. *)
  sign : string -> claims -> string;
  token_text : token -> string;
  (** SQLite's conversion of a text value compared with an INTEGER column:
      the integer the text denotes, if it is a well-formed number. *)
  integer_of_text : string -> option Z;
  (** [EventSchema().dump], and Marshmallow's part of
      [.load(json, instance=..., partial=...)]: the document is
      deserialised and validated, which raises [ValidationError] or gives
      the values of the fields, here as a record; with an instance, the
      instance with those values set.  What the schema of this program
      makes of the values is in [Schemas]. *)
  event_schema_dump : Event -> json;
  event_schema_load : json -> option Event -> bool -> result Event;
  (** The same for [RegionSchema]. *)
  region_schema_dump : Region -> json;
  region_schema_load : json -> option Region -> bool -> result Region
}.

(* ================================================================= *)
(** ** Queries and commits (Flask-SQLAlchemy over SQLite) *)

Module Sql.
Section WithLibraries.
Context {L : Libraries}.

(** [column = :param] as SQLite evaluates it: the column's affinity is
    applied to the bound parameter; [filter_by(c=None)] is [c IS NULL]. *)
Definition sql_eq (v param : sqlval) : bool :=
  match v, param with
  | SNull, SNull => true
  | SInt a, SInt b => a =? b
  | SInt a, SText s =>
      match integer_of_text s with Some b => a =? b | None => false end
  | SText a, SText b => (a =? b)%string
  | SText a, SInt n => (a =? str_of_int n)%string
  | _, _ => false
  end.

(** The integers SQLite stores: 64 bits, signed. *)
Definition int64 (n : Z) : bool := (- 2 ^ 63 <=? n) && (n <? 2 ^ 63).

(** A Python value bound to a statement parameter; lists and dicts cannot
    be bound, and an integer beyond 64 bits makes [sqlite3] raise
    [OverflowError]. *)
Definition bind_param (j : json) : result sqlval :=
  match j with
  | JNull => Ok SNull
  | JBool b => Ok (SInt (if b then 1 else 0))
  | JNum n =>
      if int64 n then Ok (SInt n)
      else Raise (OverflowError
                    "Python int too large to convert to SQLite INTEGER")
  | JStr s => Ok (SText s)
  | JArr _ | JObj _ => Raise InterfaceError
  end.

(** [db.session.execute(db.select(M).filter_by(attr=param))]: the rows
    whose attribute equals the parameter.  Naming an attribute the mapped
    class does not have raises [InvalidRequestError]. *)
Definition filter_by {R : Type} (tablename : string) (cols : list (Column R))
    (attr : string) (param : sqlval) (rows : list R) : result (list R) :=
  match column cols attr with
  | None =>
      Raise (InvalidRequestError
               ("Entity namespace for " ++ tablename ++ " has no property "
                ++ attr))
  | Some c => Ok (filter (fun r => sql_eq (col_value c r) param) rows)
  end.

Definition scalar_one {R : Type} (rows : list R) : result R :=
  match rows with
  | [] => Raise NoResultFound
  | [r] => Ok r
  | _ => Raise MultipleResultsFound
  end.

Definition scalar_one_or_none {R : Type} (rows : list R)
  : result (option R) :=
  match rows with
  | [] => Ok None
  | [r] => Ok (Some r)
  | _ => Raise MultipleResultsFound
  end.

(** Two stored values collide under a UNIQUE constraint (NULLs never do). *)
Definition stored_eq (a b : sqlval) : bool :=
  match a, b with
  | SInt x, SInt y => x =? y
  | SText x, SText y => (x =? y)%string
  | _, _ => false
  end.

Definition is_null (v : sqlval) : bool :=
  match v with SNull => true | _ => false end.

Definition violates_not_null {R : Type} (r : R) (c : Column R) : bool :=
  negb (nullable c) && is_null (col_value c r).

Definition violates_unique {R : Type} (rows : list R) (r : R) (c : Column R)
  : bool :=
  (primary_key c || unique c)
  && existsb (fun r' => stored_eq (col_value c r') (col_value c r)) rows.

(** The declared constraints, checked when a row is written. *)
Definition check_constraints {R : Type} (cols : list (Column R))
    (rows : list R) (r : R) : result unit :=
  match find (violates_not_null r) cols with
  | Some c => Raise (IntegrityError ("NOT NULL constraint failed: " ++ col_name c))
  | None =>
      match find (violates_unique rows r) cols with
      | Some c =>
          Raise (IntegrityError ("UNIQUE constraint failed: " ++ col_name c))
      | None => Ok tt
      end
  end.

(** The key SQLite gives a row inserted without one: 1 in an empty table,
    and otherwise one more than the largest key in use (as long as that
    key is below the largest 64-bit integer). *)
Definition next_id (ids : list Z) : Z :=
  match ids with
  | [] => 1
  | i :: rest => fold_right Z.max i rest + 1
  end.

(** TEXT affinity on a value stored in a text column. *)
Definition text_affinity (v : sqlval) : sqlval :=
  match v with
  | SInt n => SText (str_of_int n)
  | _ => v
  end.

Definition not_null_text (col : string) (v : sqlval) : result string :=
  match text_affinity v with
  | SText s => Ok s
  | _ => Raise (IntegrityError ("NOT NULL constraint failed: " ++ col))
  end.

Definition set_users (db : Db) (us : list User) : Db :=
  {| Db_region := Db_region db; Db_event := Db_event db; Db_user := us;
     Db_foreign_keys := Db_foreign_keys db |}.

Definition set_events (db : Db) (es : list Event) : Db :=
  {| Db_region := Db_region db; Db_event := es; Db_user := Db_user db;
     Db_foreign_keys := Db_foreign_keys db |}.

Definition set_regions (db : Db) (rs : list Region) : Db :=
  {| Db_region := rs; Db_event := Db_event db; Db_user := Db_user db;
     Db_foreign_keys := Db_foreign_keys db |}.

(** [db.session.add(user); db.session.commit()] for a new [User] whose
    [email] and [password_hash] attributes hold the given values. *)
Definition insert_user (db : Db) (email password_hash : sqlval)
  : result (User * Db) :=
  e <- not_null_text "user.email" email ;;
  h <- not_null_text "user.password_hash" password_hash ;;
  let u := {| User_id := next_id (map User_id (Db_user db));
              User_email := e; User_password_hash := h |} in
  _ <- check_constraints User_columns (Db_user db) u ;;
  Ok (u, set_users db (Db_user db ++ [u])).

Definition with_id (e : Event) (i : Z) : Event :=
  {| Event_id := Some i; Event_type := Event_type e;
     Event_year := Event_year e; Event_country := Event_country e;
     Event_host := Event_host e; Event_NOC := Event_NOC e;
     Event_start := Event_start e; Event_end := Event_end e;
     Event_duration := Event_duration e;
     Event_disabilities_included := Event_disabilities_included e;
     Event_countries := Event_countries e; Event_events := Event_events e;
     Event_sports := Event_sports e;
     Event_participants_m := Event_participants_m e;
     Event_participants_f := Event_participants_f e;
     Event_participants := Event_participants e;
     Event_highlights := Event_highlights e |}.

Definition ids_of (es : list Event) : list Z :=
  flat_map (fun e => match Event_id e with Some i => [i] | None => [] end) es.

(** The foreign key [event.NOC -> region.NOC], when it is enforced. *)
Definition check_foreign_key (db : Db) (e : Event) : result unit :=
  match Event_NOC e with
  | Some noc =>
      if Db_foreign_keys db
         && negb (existsb (fun r => (Region_NOC r =? noc)%string)
                    (Db_region db))
      then Raise (IntegrityError "FOREIGN KEY constraint failed")
      else Ok tt
  | None => Ok tt
  end.

(** [db.session.add(event); db.session.commit()] for a new event. *)
Definition insert_event (db : Db) (e : Event) : result (Event * Db) :=
  let e' := match Event_id e with
            | Some _ => e
            | None => with_id e (next_id (ids_of (Db_event db)))
            end in
  _ <- check_constraints Event_columns (Db_event db) e' ;;
  _ <- check_foreign_key db e' ;;
  Ok (e', set_events db (Db_event db ++ [e'])).

(** [db.session.add(region); db.session.commit()] for a new region. *)
Definition insert_region (db : Db) (r : Region) : result Db :=
  _ <- check_constraints Region_columns (Db_region db) r ;;
  Ok (set_regions db (Db_region db ++ [r])).

(** Some event refers to this region code. *)
Definition referenced (db : Db) (noc : string) : bool :=
  existsb (fun e => match Event_NOC e with
                    | Some n => (n =? noc)%string
                    | None => false
                    end) (Db_event db).

(** The commit of a region loaded onto a stored instance: an UPDATE of the
    row with the old key, in place.  The new values are checked against
    the other rows, and a key that events refer to cannot change while
    foreign keys are enforced. *)
Definition update_region (db : Db) (old new : Region) : result Db :=
  let others :=
    filter (fun r => negb (Region_NOC r =? Region_NOC old)%string)
      (Db_region db) in
  _ <- check_constraints Region_columns others new ;;
  if Db_foreign_keys db
     && negb (Region_NOC new =? Region_NOC old)%string
     && referenced db (Region_NOC old)
  then Raise (IntegrityError "FOREIGN KEY constraint failed")
  else
    Ok (set_regions db
          (map (fun r => if (Region_NOC r =? Region_NOC old)%string
                         then new else r) (Db_region db))).

(** The commit of an event loaded onto a stored instance, in place. *)
Definition update_event (db : Db) (old new : Event) : result Db :=
  let same e :=
    stored_eq (of_opt_int (Event_id e)) (of_opt_int (Event_id old)) in
  _ <- check_constraints Event_columns
         (filter (fun e => negb (same e)) (Db_event db)) new ;;
  _ <- check_foreign_key db new ;;
  Ok (set_events db
        (map (fun e => if same e then new else e) (Db_event db))).

(** [db.session.delete(event); db.session.commit()]. *)
Definition delete_event_row (db : Db) (e : Event) : Db :=
  set_events db
    (filter (fun e' => negb (stored_eq (of_opt_int (Event_id e'))
                               (of_opt_int (Event_id e))))
       (Db_event db)).

(** [db.session.delete(region); db.session.commit()]: the relationship
    [events] has no cascade, so the flush first sets the [NOC] of the
    events of the region to NULL.  [event.NOC] is NOT NULL: when the
    region has events that UPDATE is refused and nothing is deleted. *)
Definition delete_region_row (db : Db) (r : Region) : result Db :=
  if referenced db (Region_NOC r)
  then Raise (IntegrityError "NOT NULL constraint failed: event.NOC")
  else
    Ok (set_regions db
          (filter (fun r' => negb (Region_NOC r' =? Region_NOC r)%string)
             (Db_region db))).

End WithLibraries.
End Sql.
Export Sql.

(* ================================================================= *)
(** ** werkzeug.security and the password methods of [User] *)

Module Security.
Section WithLibraries.
Context {L : Libraries}.

Definition dollar : ascii := "$"%char.

(** The method string [generate_password_hash] writes into the hash. *)
Definition default_method : string := "scrypt:32768:8:1".

Fixpoint zeros (n : nat) : string :=
  match n with
  | O => ""
  | S n' => String zero (zeros n')
  end.

(** The key block HMAC-SHA256 builds from a key: a key longer than the
    64-byte block is hashed first, and the key is then padded with zero
    bytes up to the block size.  Both scrypt and PBKDF2 use the password
    only as such a key. *)
Definition hmac_key_block (key : string) : string :=
  let k := if Nat.ltb 64 (String.length key) then sha256 key else key in
  k ++ zeros (64 - String.length k).

(** [_hash_internal(method, salt, password)[0]]: the hex digest. *)
Definition hash_internal (method salt password : string) : string :=
  kdf method salt (hmac_key_block password).

(** [generate_password_hash(password)], with the salt [gen_salt] drew. *)
Definition generate_password_hash (salt password : string) : string :=
  default_method ++ "$" ++ salt ++ "$"
  ++ hash_internal default_method salt password.

(** [s.split("$", 1)]: the text before the first dollar and the text after
    it, when there is one. *)
Fixpoint split_dollar (s : string) : option (string * string) :=
  match s with
  | EmptyString => None
  | String c tl =>
      if Ascii.eqb c dollar then Some ("", tl)
      else match split_dollar tl with
           | Some (a, b) => Some (String c a, b)
           | None => None
           end
  end.

(** [method, salt, hashval = pwhash.split("$", 2)], [None] when the
    unpacking raises [ValueError]. *)
Definition split_pwhash (pwhash : string)
  : option (string * string * string) :=
  match split_dollar pwhash with
  | Some (method, rest) =>
      match split_dollar rest with
      | Some (salt, hashval) => Some (method, salt, hashval)
      | None => None
      end
  | None => None
  end.

(** [method.split(":")[0]]: the text before the first colon. *)
Fixpoint method_name (method : string) : string :=
  match method with
  | EmptyString => ""
  | String c tl =>
      if Ascii.eqb c ":"%char then "" else String c (method_name tl)
  end.

(** The methods [_hash_internal] knows; any other raises [ValueError]. *)
Definition known_method (method : string) : bool :=
  (method_name method =? "scrypt")%string
  || (method_name method =? "pbkdf2")%string.

(** [check_password_hash(pwhash, password)]: [False] for a hash that does
    not split in three, [ValueError] for a method that is neither scrypt
    nor pbkdf2, and the comparison of the digests otherwise. *)
Definition check_password_hash (pwhash password : string) : result bool :=
  match split_pwhash pwhash with
  | Some (method, salt, hashval) =>
      if known_method method
      then Ok (hash_internal method salt password =? hashval)%string
      else Raise (ValueError ("Invalid hash method '" ++ method ++ "'."))
  | None => Ok false
  end.

(** [User.set_password]: the new value of [self.password_hash].  A
    password that is not a [str] has no [encode]. *)
Definition set_password (salt : string) (password : json) : result string :=
  match password with
  | JStr p => Ok (generate_password_hash salt p)
  | _ => Raise (AttributeError "object has no attribute 'encode'")
  end.

(** [User.check_password]. *)
Definition check_password (u : User) (password : json) : result bool :=
  match split_pwhash (User_password_hash u) with
  | None => Ok false
  | Some _ =>
      match password with
      | JStr p => check_password_hash (User_password_hash u) p
      | _ => Raise (AttributeError "object has no attribute 'encode'")
      end
  end.

Fixpoint no_dollar (s : string) : bool :=
  match s with
  | EmptyString => true
  | String c tl => negb (Ascii.eqb c dollar) && no_dollar tl
  end.

End WithLibraries.
End Security.
Export Security.

(* ================================================================= *)
(** ** Flask: requests, responses and the application object *)

Module Flask.

Inductive body : Type :=
| JsonBody (j : json)
| HtmlBody (s : string).

Record Response : Type := {
  status : Z;
  data : body
}.

Definition is_json (r : Response) : bool :=
  match data r with JsonBody _ => true | HtmlBody _ => false end.

(** [jsonify(j)], and a [dict] returned from a view. *)
Definition jsonify (j : json) : Response :=
  {| status := 200; data := JsonBody j |}.

(** [make_response(j, code)], and the tuple [(response, code)]. *)
Definition make_response (j : json) (code : Z) : Response :=
  {| status := code; data := JsonBody j |}.

(** [e.get_response()] of an HTTP exception: Werkzeug's HTML page. *)
Definition get_response (h : http_error) (description : string) : Response :=
  {| status := http_code h;
     data := HtmlBody ("<title>" ++ str_of_int (http_code h) ++ " "
                       ++ http_name h ++ "</title><p>" ++ description
                       ++ "</p>") |}.

(** The body of a request: no JSON content type, JSON that does not
    parse (with the message of the parser), or a JSON document. *)
Inductive request_body : Type :=
| NoJson
| BadJson (parser_message : string)
| Json (j : json).

Record Request : Type := {
  Authorization : option token;
  payload_of : request_body
}.

(** The application: its configuration, and whether
    [paralympics/error_handlers.py] was imported when it was created. *)
Record App : Type := {
  SECRET_KEY : string;
  TOKEN_LIFETIME : Z;
  TESTING : bool;
  DEBUG : bool;
  PROPAGATE_EXCEPTIONS : option bool;
  error_handlers_imported : bool
}.

(** What a view function can read besides the database: the application,
    the request, the clock, and the salt [gen_salt] would draw. *)
Record Ctx : Type := {
  current_app : App;
  request : Request;
  now : Z;
  salt : string
}.

Definition not_json_description : string :=
  "Did not attempt to load JSON data because the request Content-Type was not 'application/json'.".

(** [request.get_json()]: Werkzeug raises 415 when the content type is
    not JSON and 400 when the body does not parse; Flask keeps the message
    of the parser only in debug mode. *)
Definition get_json (ctx : Ctx) : result json :=
  match payload_of (request ctx) with
  | NoJson => Raise (HTTPException UnsupportedMediaType not_json_description)
  | BadJson parser_message =>
      Raise (HTTPException BadRequest
               (if DEBUG (current_app ctx)
                then "Failed to decode JSON object: " ++ parser_message
                else "The browser (or proxy) sent a request that this server could not understand."))
  | Json j => Ok j
  end.

(** A view function: it may raise, return a response, and commit. *)
Definition view : Type := Ctx -> Db -> result (Response * Db).

(** An error handler registered with [app.errorhandler]. *)
Definition handler : Type := exn -> result Response.

End Flask.
Export Flask.

(* ================================================================= *)
(** ** helpers.py: tokens and the guard *)

Module Helpers.
Section WithLibraries.
Context {L : Libraries}.

(** Modelled from the spec: [paralympics/helpers.py] is not among the
    sources; only its callers in [routes.py] are.  [encode_auth_token]
    produces a signed token embedding the user identifier and an absolute
    expiry, a fixed configured duration after issuance. *)
Definition encode_auth_token (app : App) (issued_at user_id : Z) : token :=
  let p := {| sub := user_id; exp := issued_at + TOKEN_LIFETIME app;
              iat := issued_at |} in
  Signed p (sign (SECRET_KEY app) p).

(** Why a token is refused. *)
Inductive token_error : Type :=
| TokenMissing
| TokenInvalid
| TokenExpired.

(** Modelled from the spec: decoding verifies the signature (a malformed
    token or a wrong signature is invalid), then checks the expiry (the
    token is refused once the current time is past it), and yields the
    embedded user identifier. *)
Definition decode_auth_token (app : App) (time : Z) (t : token)
  : token_error + Z :=
  match t with
  | Malformed _ => inl TokenInvalid
  | Signed p s =>
      if (s =? sign (SECRET_KEY app) p)%string then
        if exp p <? time then inl TokenExpired else inr (sub p)
      else inl TokenInvalid
  end.

(** Modelled from the spec: the message of each refusal; the spec fixes
    only that the expiry has a message of its own. *)
Definition token_error_message (e : token_error) : string :=
  match e with
  | TokenMissing => "token missing"
  | TokenInvalid => "token invalid"
  | TokenExpired => "token expired"
  end.

Definition unauthorized (e : token_error) : Response :=
  make_response (JObj [("message", JStr (token_error_message e))]) 401.

(** Modelled from the spec: the guard takes the token from the
    authorization header, refuses a request without one, decodes it, and on
    success lets the wrapped operation proceed. *)
Definition authenticate (ctx : Ctx) : token_error + Z :=
  match Authorization (request ctx) with
  | None => inl TokenMissing
  | Some t => decode_auth_token (current_app ctx) (now ctx) t
  end.

Definition token_required (f : view) : view :=
  fun ctx db =>
    match authenticate ctx with
    | inl e => Ok (unauthorized e, db)
    | inr _ => f ctx db
    end.

End WithLibraries.
End Helpers.
Export Helpers.

(* ================================================================= *)
(** ** schemas.py: loading a document into an instance *)

Module Schemas.
Section WithLibraries.
Context {L : Libraries}.

(** The stored region with this primary key, [session.get(Region, noc)]. *)
Definition stored_region (db : Db) (noc : string) : option Region :=
  find (fun r => (Region_NOC r =? noc)%string) (Db_region db).

(** [RegionSchema().load(json, instance=..., partial=...)] with
    [load_instance = True]: the document is deserialised and validated;
    then it is set onto the instance that was passed or, when none was,
    onto the stored row that has the primary key of the document, if there
    is one; otherwise a new [Region] is built.  The result comes with the
    stored row it was loaded onto, if any.  [region_schema_load j None]
    stands for validating and building anew, [region_schema_load j (Some
    old)] for validating and setting onto [old]. *)
Definition region_load_instance (db : Db) (j : json)
    (instance : option Region) (partial : bool)
  : result (Region * option Region) :=
  match instance with
  | Some old =>
      region <- region_schema_load j (Some old) partial ;;
      Ok (region, Some old)
  | None =>
      loaded <- region_schema_load j None partial ;;
      match stored_region db (Region_NOC loaded) with
      | Some old =>
          region <- region_schema_load j (Some old) partial ;;
          Ok (region, Some old)
      | None => Ok (loaded, None)
      end
  end.

(** [db.session.add(region); db.session.commit()]: an UPDATE for an
    object loaded onto a stored row, an INSERT for a new one. *)
Definition commit_region (db : Db) (region : Region)
    (loaded_onto : option Region) : result Db :=
  match loaded_onto with
  | Some old => update_region db old region
  | None => insert_region db region
  end.

(** [EventSchema] declares [model = Event()], an instance where
    Marshmallow expects the class.  Once a document has passed validation
    and no instance was passed, the schema looks the primary key up with
    [session.query(model)], which refuses the instance with
    [ArgumentError], or, for a document without an id, calls [model(...)],
    which raises [TypeError]: no event is ever built from a document. *)
Definition event_make_instance (data : Event) : result Event :=
  match Event_id data with
  | Some _ =>
      Raise (ArgumentError
               "Column expression, FROM clause, or other columns clause element expected, got Event object")
  | None => Raise (TypeError "'Event' object is not callable")
  end.

(** [EventSchema().load(json, instance=..., partial=...)]. *)
Definition event_load_instance (j : json) (instance : option Event)
    (partial : bool) : result Event :=
  match instance with
  | Some old => event_schema_load j (Some old) partial
  | None =>
      data <- event_schema_load j None partial ;;
      event_make_instance data
  end.

End WithLibraries.
End Schemas.
Export Schemas.

(* ================================================================= *)
(** ** routes.py and error_handlers.py *)

Module Routes.
Section WithLibraries.
Context {L : Libraries}.

Definition message (s : string) : json := JObj [("message", JStr s)].

(** [@app.get("/regions")] *)
Definition get_regions : view := fun ctx db =>
  Ok (jsonify (JArr (map region_schema_dump (Db_region db))), db).

(** [@app.get('/regions/<code>')] *)
Definition get_region (code : string) : view := fun ctx db =>
  try_except
    (rows <- filter_by "region" Region_columns "NOC" (SText code)
               (Db_region db) ;;
     region <- scalar_one rows ;;
     Ok (jsonify (region_schema_dump region), db))
    C_NoResultFound
    (fun _ => Raise (HTTPException NotFound "Region not found")).

(** [@app.get("/events")] *)
Definition get_events : view := fun ctx db =>
  Ok (jsonify (JArr (map event_schema_dump (Db_event db))), db).

(** [@app.get('/events/<event_id>')] *)
Definition get_event (event_id : string) : view := fun ctx db =>
  rows <- filter_by "event" Event_columns "id" (SText event_id)
            (Db_event db) ;;
  event <- scalar_one rows ;;
  Ok (jsonify (event_schema_dump event), db).

(** [str(event.id)] *)
Definition str_of_id (i : option Z) : string :=
  match i with Some n => str_of_int n | None => "None" end.

(** [add_event], the function under [@app.post('/events')] and
    [@token_required]. *)
Definition add_event : view := fun ctx db =>
  ev_json <- get_json ctx ;;
  event <- event_load_instance ev_json None false ;;
  '(event', db') <- insert_event db event ;;
  Ok (jsonify (message ("Event added with id= " ++ str_of_id (Event_id event'))),
      db').

(** [add_region] *)
Definition add_region : view := fun ctx db =>
  json_data <- get_json ctx ;;
  '(region, loaded_onto) <- region_load_instance db json_data None false ;;
  db' <- commit_region db region loaded_onto ;;
  Ok (jsonify (message ("Region added with NOC= " ++ Region_NOC region)), db').

(** [delete_event], routed with [<int:event_id>]: the id is a string of
    digits, and the model follows the code for the ids SQLite can bind
    (below [2 ^ 63]). *)
Definition delete_event (event_id : Z) : view := fun ctx db =>
  rows <- filter_by "event" Event_columns "id" (SInt event_id)
            (Db_event db) ;;
  event <- scalar_one rows ;;
  Ok (jsonify (message ("Event " ++ str_of_int event_id ++ " deleted.")),
      delete_event_row db event).

(** [delete_region] *)
Definition delete_region (noc_code : string) : view := fun ctx db =>
  try_except
    (rows <- filter_by "region" Region_columns "NOC" (SText noc_code)
               (Db_region db) ;;
     region <- scalar_one rows ;;
     db' <- delete_region_row db region ;;
     Ok (jsonify (message ("Region " ++ noc_code ++ " deleted.")), db'))
    C_SQLAlchemyError
    (fun _ =>
       Ok (make_response (message ("Region " ++ noc_code ++ " not found")) 404,
           db)).

(** [event_update] *)
Definition event_update (event_id : string) : view := fun ctx db =>
  rows <- filter_by "event" Event_columns "event_id" (SText event_id)
            (Db_event db) ;;
  existing_event <- scalar_one_or_none rows ;;
  event_json <- get_json ctx ;;
  event_update <- event_load_instance event_json existing_event true ;;
  db' <- match existing_event with
         | Some old => update_event db old event_update
         | None => '(_, db') <- insert_event db event_update ;; Ok db'
         end ;;
  Ok (jsonify (message ("Event with id=" ++ event_id ++ " updated.")), db').

(** [region_update] *)
Definition region_update (noc_code : string) : view := fun ctx db =>
  rows <- filter_by "region" Region_columns "NOC" (SText noc_code)
            (Db_region db) ;;
  existing_region <- scalar_one_or_none rows ;;
  region_json <- get_json ctx ;;
  '(region_update, loaded_onto) <-
    region_load_instance db region_json existing_region true ;;
  db' <- commit_region db region_update loaded_onto ;;
  Ok (jsonify (message ("Region " ++ noc_code ++ " updated.")), db').

(** The class name in the text of an [AttributeError]. *)
Definition class_name (e : exn) : string :=
  match e with
  | HTTPException h _ => http_name h
  | NoResultFound => "NoResultFound"
  | MultipleResultsFound => "MultipleResultsFound"
  | InvalidRequestError _ => "InvalidRequestError"
  | IntegrityError _ => "IntegrityError"
  | InterfaceError => "InterfaceError"
  | ValidationError _ => "ValidationError"
  | AttributeError _ => "AttributeError"
  | TypeError _ => "TypeError"
  | ValueError _ => "ValueError"
  | OverflowError _ => "OverflowError"
  | ArgumentError _ => "ArgumentError"
  end.

(** The [AttributeError] of an attribute an exception does not have. *)
Definition no_attribute (e : exn) (attr : string) : exn :=
  AttributeError
    ("'" ++ class_name e ++ "' object has no attribute '" ++ attr ++ "'").

(** [e.get_response()] with its body replaced by
    [json.dumps({"code": .., "name": .., "description": ..})]. *)
Definition json_error (h : http_error) (description : string) : Response :=
  {| status := http_code h;
     data := JsonBody (JObj [("code", JNum (http_code h));
                             ("name", JStr (http_name h));
                             ("description", JStr description)]) |}.

(** [@app.errorhandler(Exception) def handle_exception(e)]: an HTTP error
    is returned as it is; on any other exception the handler calls
    [e.get_response()], which only HTTP exceptions have. *)
Definition handle_exception : handler := fun e =>
  match e with
  | HTTPException h description => Ok (get_response h description)
  | _ => Raise (no_attribute e "get_response")
  end.

(** [@app.errorhandler(HTTPException) def handle_exception(e)], the second
    function of that name in [routes.py]. *)
Definition handle_exception' : handler := fun e =>
  match e with
  | HTTPException h description => Ok (json_error h description)
  | _ => Raise (no_attribute e "get_response")
  end.

(** [str(e)] of an HTTP exception. *)
Definition str_of_http (h : http_error) (description : string) : string :=
  str_of_int (http_code h) ++ " " ++ http_name h ++ ": " ++ description.

(** [@app.errorhandler(404) def resource_not_found(e)], in [routes.py] and
    again in [error_handlers.py]. *)
Definition resource_not_found : handler := fun e =>
  match e with
  | HTTPException h description =>
      Ok (make_response (JObj [("error", JStr (str_of_http h description))])
            404)
  | _ => Ok (make_response (JObj [("error", JStr (class_name e))]) 404)
  end.

(** [@app.errorhandler(ValidationError) def register_validation_error],
    in [error_handlers.py]. *)
Definition register_validation_error : handler := fun e =>
  match e with
  | ValidationError messages => Ok (make_response messages 400)
  | _ => Raise (no_attribute e "messages")
  end.

(** [register], the function under [@app.post("/register")] and
    [@token_required]. *)
Definition register : view := fun ctx db =>
  post_data <- get_json ctx ;;
  email <- Py.get post_data "email" ;;
  param <- bind_param email ;;
  rows <- filter_by "user" User_columns "email" param (Db_user db) ;;
  user <- scalar_one_or_none rows ;;
  match user with
  | None =>
      try_except
        (email <- Py.get post_data "email" ;;
         password <- Py.get post_data "password" ;;
         password_hash <- set_password (salt ctx) password ;;
         email_value <- bind_param email ;;
         '(_, db') <- insert_user db email_value (SText password_hash) ;;
         Ok (make_response (message "Successfully registered.") 201, db'))
        C_Exception
        (fun _ =>
           Ok (make_response (message "An error occurred. Please try again.")
                 500, db))
  | Some _ =>
      Ok (make_response (message "User already exists. Please Log in.") 409,
          db)
  end.

(** The two 401 answers of [login]. *)
Definition missing_credentials : Response :=
  make_response (message "Missing email or password") 401.

Definition incorrect_credentials : Response :=
  make_response (message "Incorrect email or password.") 401.

(** [login], the function under [@app.post('/login')] and
    [@token_required]. *)
Definition login : view := fun ctx db =>
  auth <- get_json ctx ;;
  if negb (truthy auth) then Ok (missing_credentials, db) else
  email <- Py.get auth "email" ;;
  if negb (truthy email) then Ok (missing_credentials, db) else
  password <- Py.get auth "password" ;;
  if negb (truthy password) then Ok (missing_credentials, db) else
  param <- bind_param email ;;
  rows <- filter_by "user" User_columns "email" param (Db_user db) ;;
  user <- scalar_one_or_none rows ;;
  match user with
  | None => Ok (incorrect_credentials, db)
  | Some u =>
      ok <- check_password u password ;;
      if negb ok then Ok (incorrect_credentials, db) else
      let token := encode_auth_token (current_app ctx) (now ctx) (User_id u) in
      Ok (make_response
            (JObj [("user_id", JNum (User_id u));
                   ("token", JStr (token_text token))]) 201, db)
  end.

End WithLibraries.
End Routes.
Export Routes.

(* ================================================================= *)
(** ** The application: routing table, handler lookup and dispatch *)

Module Application.
Section WithLibraries.
Context {L : Libraries}.

(** A matched URL rule with its arguments. *)
Inductive endpoint : Type :=
| GET_regions
| GET_region (code : string)
| GET_events
| GET_event (event_id : string)
| POST_events
| POST_regions
| DELETE_event (event_id : Z)
| DELETE_region (noc_code : string)
| PATCH_event (event_id : string)
| PATCH_region (noc_code : string)
| POST_register
| POST_login.

(** The function each decorator stack leaves under its route. *)
Definition body_of (ep : endpoint) : view :=
  match ep with
  | GET_regions => get_regions
  | GET_region code => get_region code
  | GET_events => get_events
  | GET_event event_id => get_event event_id
  | POST_events => add_event
  | POST_regions => add_region
  | DELETE_event event_id => delete_event event_id
  | DELETE_region noc_code => delete_region noc_code
  | PATCH_event event_id => event_update event_id
  | PATCH_region noc_code => region_update noc_code
  | POST_register => register
  | POST_login => login
  end.

(** [app.view_functions]: [@token_required] sits between the route
    decorator and the function on the eight writing routes. *)
Definition view_functions (ep : endpoint) : view :=
  match ep with
  | GET_regions => get_regions
  | GET_region code => get_region code
  | GET_events => get_events
  | GET_event event_id => get_event event_id
  | POST_events => token_required add_event
  | POST_regions => token_required add_region
  | DELETE_event event_id => token_required (delete_event event_id)
  | DELETE_region noc_code => token_required (delete_region noc_code)
  | PATCH_event event_id => token_required (event_update event_id)
  | PATCH_region noc_code => token_required (region_update noc_code)
  | POST_register => token_required register
  | POST_login => token_required login
  end.

(** The operations the interface table marks as needing a token. *)
Definition protected (ep : endpoint) : bool :=
  match ep with
  | GET_regions | GET_region _ | GET_events | GET_event _ => false
  | _ => true
  end.

(** [app.error_handler_spec[None][code]]: the handlers registered for a
    status code, and those registered for a class ([code = None]). *)
Definition error_handler_spec (app : App) (code : option Z)
  : list (exc_class * handler) :=
  match code with
  | None =>
      [(C_Exception, handle_exception);
       (C_HTTPException, handle_exception')]
      ++ (if error_handlers_imported app
          then [(C_ValidationError, register_validation_error)]
          else [])
  | Some c =>
      if c =? 404 then [(C_http NotFound, resource_not_found)] else []
  end.

Fixpoint handler_for (handler_map : list (exc_class * handler))
    (cls : exc_class) : option handler :=
  match handler_map with
  | [] => None
  | (c, h) :: tl => if exc_class_eqb c cls then Some h else handler_for tl cls
  end.

(** The first class of the MRO that has a handler in the map. *)
Fixpoint first_handler (handler_map : list (exc_class * handler))
    (classes : list exc_class) : option handler :=
  match classes with
  | [] => None
  | cls :: tl =>
      match handler_for handler_map cls with
      | Some h => Some h
      | None => first_handler handler_map tl
      end
  end.

Definition code_of (e : exn) : option Z :=
  match e with
  | HTTPException h _ => Some (http_code h)
  | _ => None
  end.

(** [Flask._find_error_handler]: handlers for the status code first, then
    handlers for a class, each searched along the MRO. *)
Definition find_error_handler (app : App) (e : exn) : option handler :=
  match code_of e with
  | Some c =>
      match first_handler (error_handler_spec app (Some c)) (mro e) with
      | Some h => Some h
      | None => first_handler (error_handler_spec app None) (mro e)
      end
  | None => first_handler (error_handler_spec app None) (mro e)
  end.

(** [Flask.handle_http_exception] *)
Definition handle_http_exception (app : App) (e : exn) : result Response :=
  match find_error_handler app e with
  | Some h => h e
  | None =>
      match e with
      | HTTPException h description => Ok (get_response h description)
      | _ => Raise e
      end
  end.

(** [Flask.handle_user_exception] *)
Definition handle_user_exception (app : App) (e : exn) : result Response :=
  if isinstance e C_HTTPException then handle_http_exception app e
  else match find_error_handler app e with
       | Some h => h e
       | None => Raise e
       end.

(** [Flask.full_dispatch_request]: an exception leaves the session
    uncommitted. *)
Definition full_dispatch_request (ep : endpoint) : view := fun ctx db =>
  match view_functions ep ctx db with
  | Ok rv => Ok rv
  | Raise e =>
      rv <- handle_user_exception (current_app ctx) e ;;
      Ok (rv, db)
  end.

(** What the WSGI server gets back: a response and the committed store,
    or an exception that propagated out of the application. *)
Inductive outcome : Type :=
| Responded (r : Response) (db : Db)
| Propagated (e : exn).

Definition propagate_exceptions (app : App) : bool :=
  match PROPAGATE_EXCEPTIONS app with
  | Some b => b
  | None => TESTING app || DEBUG app
  end.

Definition internal_server_error_description : string :=
  "The server encountered an internal error and was unable to complete your request. Either the server is overloaded or there is an error in the application.".

(** [InternalServerError(original_exception=e)] *)
Definition internal_server_error : exn :=
  HTTPException InternalServerError internal_server_error_description.

(** [Flask.handle_exception]: the last resort for an exception no handler
    dealt with, or that a handler raised. *)
Definition flask_handle_exception (app : App) (e : exn) (db : Db) : outcome :=
  if propagate_exceptions app then Propagated e
  else
    match find_error_handler app internal_server_error with
    | Some h =>
        match h internal_server_error with
        | Ok r => Responded r db
        | Raise e' => Propagated e'
        end
    | None =>
        Responded
          (get_response InternalServerError internal_server_error_description)
          db
    end.

(** [Flask.wsgi_app] *)
Definition wsgi_app (ep : endpoint) (ctx : Ctx) (db : Db) : outcome :=
  match full_dispatch_request ep ctx db with
  | Ok (r, db') => Responded r db'
  | Raise e => flask_handle_exception (current_app ctx) e db
  end.

End WithLibraries.
End Application.
Export Application.

(* ================================================================= *)
(** ** models.py: [User.__repr__] *)

Module Representation.

(** [str(v)] of an attribute value. *)
Definition str_of_value (v : sqlval) : string :=
  match v with
  | SNull => "None"
  | SInt n => str_of_int n
  | SText s => s
  end.

(** [getattr(obj, name)] for a data attribute of a mapped class: the value
    of the column of that name.  A name the class does not define raises
    [AttributeError]. *)
Definition getattr {R : Type} (class_name : string) (cols : list (Column R))
    (obj : R) (name : string) : result sqlval :=
  match column cols name with
  | Some c => Ok (col_value c obj)
  | None =>
      Raise (AttributeError
               ("'" ++ class_name ++ "' object has no attribute '" ++ name
                ++ "'"))
  end.

(** [User.__repr__]: ['<User {}>'.format(self.username)]. *)
Definition User_repr (self : User) : result string :=
  username <- getattr "User" User_columns self "username" ;;
  Ok ("<User " ++ str_of_value username ++ ">").

End Representation.
Export Representation.

(* ================================================================= *)
(** ** Conditions on requests and on the store *)

Module Conditions.

(** The request carries a JSON object whose [email] and [password] are
    the given values ([None] for a key that is absent). *)
Definition has_credentials (ctx : Ctx) (email password : json) : Prop :=
  exists fields,
    payload_of (request ctx) = Json (JObj fields)
    /\ Py.get (JObj fields) "email" = Ok email
    /\ Py.get (JObj fields) "password" = Ok password.

(** Some stored user has this email. *)
Definition email_registered (db : Db) (email : string) : Prop :=
  exists u, In u (Db_user db) /\ User_email u = email.

(** The UNIQUE constraints of the [user] table, as invariants. *)
Definition emails_unique (db : Db) : Prop :=
  NoDup (map User_email (Db_user db)).

Definition hashes_unique (db : Db) : Prop :=
  NoDup (map User_password_hash (Db_user db)).

(** Some stored region has this code. *)
Definition region_stored (db : Db) (code : string) : Prop :=
  exists r, In r (Db_region db) /\ Region_NOC r = code.

(** Some stored event has this id. *)
Definition event_stored (db : Db) (event_id : Z) : Prop :=
  exists e, In e (Db_event db) /\ Event_id e = Some event_id.

(** The primary keys of [region] and [event], as invariants. *)
Definition region_codes_unique (db : Db) : Prop :=
  NoDup (map Region_NOC (Db_region db)).

Definition event_ids_unique (db : Db) : Prop :=
  NoDup (map Event_id (Db_event db)).

(** The request carries this JSON document. *)
Definition has_json (ctx : Ctx) (j : json) : Prop :=
  payload_of (request ctx) = Json j.

End Conditions.
Export Conditions.

(* ================================================================= *)
(** ** Concrete libraries and requests, used to run the model *)

Module Fixtures.

(** Stand-ins for the library functions: a digest that concatenates its
    inputs, a signature that spells out the payload, decimal parsing for
    SQLite's conversion, and schemas that dump two fields and reject every
    load. *)
Definition simple_libraries : Libraries := {|
  sha256 := fun s => "sha256:" ++ s;
  kdf := fun method salt key => method ++ salt ++ key;
  sign := fun secret p =>
    secret ++ ":" ++ str_of_int (sub p) ++ ":" ++ str_of_int (exp p);
  token_text := fun t =>
    match t with
    | Malformed raw => raw
    | Signed p s => str_of_int (sub p) ++ "." ++ s
    end;
  integer_of_text := fun s => option_map Z.of_int (NilZero.int_of_string s);
  event_schema_dump := fun e =>
    JObj [("id", match Event_id e with Some i => JNum i | None => JNull end);
          ("host", JStr (Event_host e))];
  event_schema_load := fun _ _ _ =>
    Raise (ValidationError (JObj [("_schema", JStr "Invalid input type.")]));
  region_schema_dump := fun r => JObj [("NOC", JStr (Region_NOC r))];
  region_schema_load := fun _ _ _ =>
    Raise (ValidationError (JObj [("_schema", JStr "Invalid input type.")]))
|}.

(** An application in production, and the one [tests/conftest.py] builds. *)
Definition production_app : App := {|
  SECRET_KEY := "secret"; TOKEN_LIFETIME := 300;
  TESTING := false; DEBUG := false; PROPAGATE_EXCEPTIONS := None;
  error_handlers_imported := true
|}.

Definition testing_app : App := {|
  SECRET_KEY := "secret"; TOKEN_LIFETIME := 300;
  TESTING := true; DEBUG := false; PROPAGATE_EXCEPTIONS := None;
  error_handlers_imported := true
|}.

Definition empty_db : Db := {|
  Db_region := []; Db_event := []; Db_user := []; Db_foreign_keys := false
|}.

Definition rome_1960 : Event := {|
  Event_id := Some 33; Event_type := "summer"; Event_year := 1960;
  Event_country := "Italy"; Event_host := "Rome"; Event_NOC := Some "ITA";
  Event_start := Some "18/09/1960"; Event_end := Some "25/09/1960";
  Event_duration := Some 7;
  Event_disabilities_included := Some "Spinal injury";
  Event_countries := Some 23; Event_events := Some 113;
  Event_sports := Some 8; Event_participants_m := None;
  Event_participants_f := None; Event_participants := Some 209;
  Event_highlights := None
|}.

Definition one_event_db : Db := {|
  Db_region := [{| Region_NOC := "ITA"; Region_region := "Italy";
                   Region_notes := None |}];
  Db_event := [rome_1960]; Db_user := []; Db_foreign_keys := false
|}.

(** A token issued at time 50 for user 1, valid until 350. *)
Definition valid_token : token :=
  encode_auth_token (L := simple_libraries) production_app 50 1.

Definition request_with (tok : option token) (b : request_body) : Request :=
  {| Authorization := tok; payload_of := b |}.

Definition ctx_of (app : App) (r : Request) : Ctx :=
  {| current_app := app; request := r; now := 100; salt := "abc" |}.

Definition credentials (email password : string) : request_body :=
  Json (JObj [("email", JStr email); ("password", JStr password)]).

(** The user [tests/conftest.py] creates, with the salt ["abc"]. *)
Definition tester : User := {|
  User_id := 1; User_email := "tester@mytesting.com";
  User_password_hash :=
    generate_password_hash (L := simple_libraries) "abc" "PlainTextPassword"
|}.

Definition one_user_db : Db := {|
  Db_region := []; Db_event := []; Db_user := [tester];
  Db_foreign_keys := false
|}.

(** Libraries whose region schema accepts an object with a [NOC] and a
    [region] (taking from the instance what a partial load leaves out), and
    whose event schema accepts an object with a [type], [year], [country]
    and [host]. *)
Definition text_field (k : string) (fields : list (string * json))
  : option string :=
  match assoc k fields with Some (JStr s) => Some s | _ => None end.

Definition int_field (k : string) (fields : list (string * json))
  : option Z :=
  match assoc k fields with Some (JNum n) => Some n | _ => None end.

Definition invalid_input : exn :=
  ValidationError (JObj [("_schema", JStr "Invalid input type.")]).

Definition load_region (j : json) (instance : option Region) (partial : bool)
  : result Region :=
  match j with
  | JObj fields =>
      let old_NOC := option_map Region_NOC instance in
      let old_region := option_map Region_region instance in
      let pick (new old : option string) :=
        match new with Some v => Some v | None => old end in
      match pick (text_field "NOC" fields) old_NOC,
            pick (text_field "region" fields) old_region with
      | Some noc, Some name =>
          Ok {| Region_NOC := noc; Region_region := name;
                Region_notes := text_field "notes" fields |}
      | _, _ =>
          Raise (ValidationError
                   (JObj [("region",
                           JArr [JStr "Missing data for required field."])]))
      end
  | _ => Raise invalid_input
  end.

Definition load_event (j : json) (instance : option Event) (partial : bool)
  : result Event :=
  match j with
  | JObj fields =>
      match text_field "type" fields, int_field "year" fields,
            text_field "country" fields, text_field "host" fields with
      | Some t, Some y, Some c, Some h =>
          Ok {| Event_id := int_field "id" fields; Event_type := t;
                Event_year := y; Event_country := c; Event_host := h;
                Event_NOC := text_field "NOC" fields;
                Event_start := text_field "start" fields;
                Event_end := text_field "end" fields;
                Event_duration := int_field "duration" fields;
                Event_disabilities_included :=
                  text_field "disabilities_included" fields;
                Event_countries := int_field "countries" fields;
                Event_events := int_field "events" fields;
                Event_sports := int_field "sports" fields;
                Event_participants_m := int_field "participants_m" fields;
                Event_participants_f := int_field "participants_f" fields;
                Event_participants := int_field "participants" fields;
                Event_highlights := text_field "highlights" fields |}
      | _, _, _, _ =>
          Raise (ValidationError
                   (JObj [("type",
                           JArr [JStr "Missing data for required field."])]))
      end
  | _ => Raise invalid_input
  end.

Definition loading_libraries : Libraries := {|
  sha256 := sha256 (Libraries := simple_libraries);
  kdf := kdf (Libraries := simple_libraries);
  sign := sign (Libraries := simple_libraries);
  token_text := token_text (Libraries := simple_libraries);
  integer_of_text := integer_of_text (Libraries := simple_libraries);
  event_schema_dump := event_schema_dump (Libraries := simple_libraries);
  event_schema_load := load_event;
  region_schema_dump := region_schema_dump (Libraries := simple_libraries);
  region_schema_load := load_region
|}.

Definition italy : Region :=
  {| Region_NOC := "ITA"; Region_region := "Italy"; Region_notes := None |}.

Definition new_region_json : json :=
  JObj [("NOC", JStr "NEW"); ("notes", JNull);
        ("region", JStr "A new region")].

Definition new_region : Region :=
  {| Region_NOC := "NEW"; Region_region := "A new region";
     Region_notes := None |}.


(** A request with the valid token, in production. *)
Definition authorized (b : request_body) : Ctx :=
  ctx_of production_app (request_with (Some valid_token) b).

Definition anonymous : Ctx :=
  ctx_of production_app (request_with None NoJson).

End Fixtures.

(* ================================================================= *)
(** ** Properties *)

(** Takes apart a run that returned: every step before the return
    returned too. *)
Ltac invert_run :=
  repeat match goal with
  | H : Ok _ = Ok _ |- _ => injection H as H; subst
  | H : (_, _) = (_, _) |- _ => injection H as H; subst
  | H : Raise _ = Ok _ |- _ => discriminate H
  | H : bind ?c _ = Ok _ |- _ =>
      let E := fresh "E" in
      destruct c eqn:E; cbn [bind] in H; [|discriminate H]
  | H : try_except ?c _ _ = Ok _ |- _ =>
      let E := fresh "E" in
      destruct c eqn:E; cbn [try_except] in H
  | H : (if ?b then _ else _) = Ok _ |- _ => destruct b
  | H : match ?x with _ => _ end = Ok _ |- _ => destruct x
  end.

Section ListFacts.
Context {A : Type}.

Lemma filter_none (f : A -> bool) (l : list A) :
  (forall x, In x l -> f x = false) -> filter f l = [].
Proof.
  induction l as [|a l IH]; simpl; intros H; [reflexivity|].
  rewrite (H a (or_introl eq_refl)). apply IH. intros x Hx.
  apply H. now right.
Qed.

(** A key that is unique in a table selects exactly its row. *)
Lemma filter_unique_key {K : Type} (key : A -> K) (f : A -> bool)
    (l : list A) (x : A) :
  NoDup (map key l) -> In x l ->
  (forall y, f y = true <-> key y = key x) ->
  filter f l = [x].
Proof.
  intros Hnd Hin Hf.
  induction l as [|a l IH]; simpl in *; [contradiction|].
  inversion Hnd as [|? ? Hnotin Hnd']; subst.
  destruct Hin as [-> | Hin].
  - assert (Hx : f x = true) by (apply Hf; reflexivity).
    rewrite Hx. f_equal. apply filter_none.
    intros y Hy. destruct (f y) eqn:Hy'; [|reflexivity].
    exfalso. apply Hnotin. apply Hf in Hy'. rewrite <- Hy'.
    now apply in_map.
  - destruct (f a) eqn:Ha.
    + exfalso. apply Hnotin. apply Hf in Ha. rewrite Ha. now apply in_map.
    + now apply IH.
Qed.

End ListFacts.

Lemma isinstance_Exception (e : exn) : isinstance e C_Exception = true.
Proof. destruct e; reflexivity. Qed.

Section RequestProperties.
Context {L : Libraries}.

(** An HTTP error other than 404 is rendered by [handle_exception']. *)
Lemma handle_http_exception_json (app : App) (h : http_error) (d : string) :
  h <> NotFound ->
  handle_user_exception app (HTTPException h d) = Ok (json_error h d).
Proof.
  intros Hh. unfold handle_user_exception, handle_http_exception,
    find_error_handler, error_handler_spec.
  destruct (error_handlers_imported app), h; try congruence; reflexivity.
Qed.

(** What becomes of a non-HTTP exception that has no handler of its own:
    [handle_exception] is chosen for it and raises in its turn. *)
Lemma handle_user_exception_non_http (app : App) (e : exn) :
  isinstance e C_HTTPException = false ->
  isinstance e C_ValidationError = false ->
  handle_user_exception app e
  = Raise (no_attribute e "get_response").
Proof.
  intros Hh Hv. unfold handle_user_exception. rewrite Hh.
  unfold find_error_handler, error_handler_spec.
  destruct e; try discriminate; destruct (error_handlers_imported app);
    reflexivity.
Qed.

(** The last resort: the exception propagates when the application is
    testing or debugging, and is otherwise reported as a JSON 500. *)
Lemma flask_handle_exception_outcome (app : App) (e : exn) (db : Db) :
  flask_handle_exception app e db
  = if propagate_exceptions app then Propagated e
    else Responded
           (json_error InternalServerError internal_server_error_description)
           db.
Proof.
  unfold flask_handle_exception, find_error_handler, error_handler_spec.
  destruct (propagate_exceptions app), (error_handlers_imported app);
    reflexivity.
Qed.

(** A view that raises a non-HTTP exception, other than a validation
    error: the exception [handle_exception] raises propagates under
    testing or debugging, and is otherwise reported as a JSON 500. *)
Lemma wsgi_app_unhandled (ep : endpoint) (ctx : Ctx) (db : Db) (e : exn) :
  view_functions ep ctx db = Raise e ->
  isinstance e C_HTTPException = false ->
  isinstance e C_ValidationError = false ->
  wsgi_app ep ctx db
  = if propagate_exceptions (current_app ctx)
    then Propagated (no_attribute e "get_response")
    else Responded
           (json_error InternalServerError internal_server_error_description)
           db.
Proof.
  intros Hview Hh Hv. unfold wsgi_app, full_dispatch_request.
  rewrite Hview, (handle_user_exception_non_http _ _ Hh Hv). simpl.
  apply flask_handle_exception_outcome.
Qed.

(** A view that raises an HTTP error other than 404: the JSON page. *)
Lemma wsgi_app_http_error (ep : endpoint) (ctx : Ctx) (db : Db)
    (h : http_error) (d : string) :
  view_functions ep ctx db = Raise (HTTPException h d) ->
  h <> NotFound ->
  wsgi_app ep ctx db = Responded (json_error h d) db.
Proof.
  intros Hview Hh. unfold wsgi_app, full_dispatch_request.
  rewrite Hview, (handle_http_exception_json _ _ _ Hh). reflexivity.
Qed.

Lemma wsgi_app_ok (ep : endpoint) (ctx : Ctx) (db db' : Db) (r : Response) :
  view_functions ep ctx db = Ok (r, db') ->
  wsgi_app ep ctx db = Responded r db'.
Proof.
  intros Hview. unfold wsgi_app, full_dispatch_request. now rewrite Hview.
Qed.

(* ----------------------------------------------------------------- *)
(** *** GET /events/{id} *)

(** The row an event id in a URL selects. *)
Lemma event_id_matches (event_id : string) (n : Z) (e : Event) :
  integer_of_text event_id = Some n ->
  sql_eq (of_opt_int (Event_id e)) (SText event_id) = true
  <-> Event_id e = Some n.
Proof.
  intros Hn. destruct (Event_id e) as [m|]; simpl.
  - rewrite Hn. rewrite Z.eqb_eq. split; congruence.
  - split; discriminate.
Qed.

(** For an id that exists, the response is 200 with the event object. *)
Lemma get_event_known_id (event_id : string) (n : Z) (e : Event)
    (ctx : Ctx) (db : Db) :
  integer_of_text event_id = Some n ->
  NoDup (map Event_id (Db_event db)) ->
  In e (Db_event db) ->
  Event_id e = Some n ->
  wsgi_app (GET_event event_id) ctx db
  = Responded (jsonify (event_schema_dump e)) db.
Proof.
  intros Hn Hnd Hin He. apply wsgi_app_ok. simpl. unfold get_event, filter_by.
  simpl.
  rewrite (filter_unique_key Event_id _ (Db_event db) e Hnd Hin).
  - reflexivity.
  - intros y. rewrite (event_id_matches _ _ y Hn). now rewrite He.
Qed.

(** C1 (the behaviour of the code where the claim expects 404): when no
    event has the requested id, [get_event] raises [NoResultFound], which
    nothing turns into a 404: under testing or debugging an exception
    propagates out of the application, and otherwise the response is a
    JSON 500. *)
Theorem get_event_unknown_id (event_id : string) (ctx : Ctx) (db : Db) :
  (forall e, In e (Db_event db) ->
     sql_eq (of_opt_int (Event_id e)) (SText event_id) = false) ->
  get_event event_id ctx db = Raise NoResultFound /\
  wsgi_app (GET_event event_id) ctx db
  = if propagate_exceptions (current_app ctx)
    then Propagated
           (AttributeError
              "'NoResultFound' object has no attribute 'get_response'")
    else Responded
           (json_error InternalServerError internal_server_error_description)
           db.
Proof.
  intros Hnone.
  assert (Hview : get_event event_id ctx db = Raise NoResultFound).
  { unfold get_event, filter_by. simpl.
    rewrite (filter_none _ _ Hnone). reflexivity. }
  split; [exact Hview|].
  apply (wsgi_app_unhandled (GET_event event_id) ctx db NoResultFound Hview);
    reflexivity.
Qed.

(* ----------------------------------------------------------------- *)
(** *** PATCH /events/{id} *)

(** C3: the PATCH handler filters the Event table on [event_id], which is
    not an attribute of [Event] (its primary key is [id]); so the lookup
    selects no row for any id and any table: it raises, and the handler
    with it. *)
Theorem event_update_lookup_never_selects :
  primary_key_of Event_columns = Some "id" /\
  column Event_columns "event_id" = None /\
  forall (event_id : string) (ctx : Ctx) (db : Db),
    exists msg,
      filter_by "event" Event_columns "event_id" (SText event_id)
        (Db_event db) = Raise (InvalidRequestError msg)
      /\ event_update event_id ctx db = Raise (InvalidRequestError msg).
Proof.
  split; [reflexivity|]. split; [reflexivity|].
  intros event_id ctx db. eexists. split; reflexivity.
Qed.

(* ----------------------------------------------------------------- *)
(** *** The handler for [Exception] *)

(** In production the client of a failed request still gets a JSON 500:
    Flask wraps what [handle_exception] raised into an
    [InternalServerError], which the handler for HTTP errors renders. *)
Lemma unhandled_exception_in_production (ep : endpoint) (ctx : Ctx) (db : Db)
    (e : exn) :
  view_functions ep ctx db = Raise e ->
  isinstance e C_HTTPException = false ->
  isinstance e C_ValidationError = false ->
  propagate_exceptions (current_app ctx) = false ->
  wsgi_app ep ctx db
  = Responded
      (json_error InternalServerError internal_server_error_description) db.
Proof.
  intros Hview Hh Hv Hp.
  rewrite (wsgi_app_unhandled ep ctx db e Hview Hh Hv). now rewrite Hp.
Qed.

(** C4 (the behaviour of the code where the claim expects a JSON 500 from
    the handler): on a non-HTTP exception [handle_exception] does not
    return a response, it raises [AttributeError]; in an application that
    is testing or debugging that exception propagates, and the request
    gets no JSON body at all. *)
Theorem handle_exception_non_http (e : exn) :
  isinstance e C_HTTPException = false ->
  handle_exception e = Raise (no_attribute e "get_response") /\
  forall (ep : endpoint) (ctx : Ctx) (db : Db),
    view_functions ep ctx db = Raise e ->
    isinstance e C_ValidationError = false ->
    propagate_exceptions (current_app ctx) = true ->
    wsgi_app ep ctx db = Propagated (no_attribute e "get_response").
Proof.
  intros Hh. split.
  - destruct e; try discriminate; reflexivity.
  - intros ep ctx db Hview Hv Hp.
    rewrite (wsgi_app_unhandled ep ctx db e Hview Hh Hv). now rewrite Hp.
Qed.

End RequestProperties.

Import Fixtures.

Lemma get_event_unknown_id_witness :
  get_event (L := simple_libraries) "999"
    (ctx_of production_app (request_with None NoJson)) one_event_db
  = Raise NoResultFound
  /\ wsgi_app (L := simple_libraries) (GET_event "999")
       (ctx_of production_app (request_with None NoJson)) one_event_db
     = Responded
         (json_error InternalServerError internal_server_error_description)
         one_event_db.
Proof.
  apply (get_event_unknown_id (L := simple_libraries) "999"
           (ctx_of production_app (request_with None NoJson)) one_event_db).
  intros e [<- | []]. reflexivity.
Defined.

(** The same request in the application the tests build: no response. *)
Example unknown_event_id_under_testing :
  wsgi_app (L := simple_libraries) (GET_event "999")
    (ctx_of testing_app (request_with None NoJson)) one_event_db
  = Propagated
      (AttributeError "'NoResultFound' object has no attribute 'get_response'").
Proof. reflexivity. Qed.

Example get_event_known_id_200 :
  wsgi_app (L := simple_libraries) (GET_event "33")
    (ctx_of production_app (request_with None NoJson)) one_event_db
  = Responded (jsonify (JObj [("id", JNum 33); ("host", JStr "Rome")]))
      one_event_db.
Proof. reflexivity. Qed.

(** PATCH on the one stored event, with a valid token: the lookup raises
    and the request ends as a 500. *)
Example patch_stored_event_500 :
  wsgi_app (L := simple_libraries) (PATCH_event "33")
    (ctx_of production_app
       (request_with (Some valid_token)
          (Json (JObj [("host", JStr "Roma")]))))
    one_event_db
  = Responded
      (json_error InternalServerError internal_server_error_description)
      one_event_db.
Proof. reflexivity. Qed.

(** The sibling route does turn a missing row into a 404. *)
Example get_region_unknown_code_404 :
  wsgi_app (L := simple_libraries) (GET_region "ZZZ")
    (ctx_of production_app (request_with None NoJson)) one_event_db
  = Responded
      (make_response
         (JObj [("error", JStr "404 Not Found: Region not found")]) 404)
      one_event_db.
Proof. reflexivity. Qed.

Lemma handle_exception_non_http_witness :
  handle_exception NoResultFound
  = Raise (no_attribute NoResultFound "get_response")
  /\ wsgi_app (L := simple_libraries) (GET_event "999")
       (ctx_of testing_app (request_with None NoJson)) one_event_db
     = Propagated (no_attribute NoResultFound "get_response").
Proof.
  destruct (handle_exception_non_http (L := simple_libraries) NoResultFound
              eq_refl) as [Hraise Hprop].
  split; [exact Hraise | apply Hprop; reflexivity].
Defined.

(* ----------------------------------------------------------------- *)
(** *** The guard on the writing routes *)

Section GuardProperties.
Context {L : Libraries}.

(** The guard passes exactly on a token signed with the application's key
    whose expiry is not behind the clock. *)
Lemma authenticate_passes (ctx : Ctx) (uid : Z) :
  authenticate ctx = inr uid
  <-> exists p s,
        Authorization (request ctx) = Some (Signed p s)
        /\ s = sign (SECRET_KEY (current_app ctx)) p
        /\ now ctx <= exp p
        /\ uid = sub p.
Proof.
  unfold authenticate, decode_auth_token. split.
  - destruct (Authorization (request ctx)) as [[raw | p s]|];
      try discriminate.
    destruct (String.eqb_spec s (sign (SECRET_KEY (current_app ctx)) p));
      try discriminate.
    destruct (Z.ltb_spec (exp p) (now ctx)); try discriminate.
    intros [= <-]. exists p, s. repeat split; auto.
  - intros (p & s & -> & -> & Hexp & ->).
    rewrite String.eqb_refl.
    destruct (Z.ltb_spec (exp p) (now ctx)); [lia | reflexivity].
Qed.

(** A refused request gets the 401 whatever the wrapped function is: the
    function is not applied. *)
Lemma token_required_refuses (f : view) (ctx : Ctx) (db : Db)
    (err : token_error) :
  authenticate ctx = inl err ->
  token_required f ctx db = Ok (unauthorized err, db).
Proof. intros H. unfold token_required. now rewrite H. Qed.

Lemma token_required_passes (f : view) (ctx : Ctx) (db : Db) (uid : Z) :
  authenticate ctx = inr uid ->
  token_required f ctx db = f ctx db.
Proof. intros H. unfold token_required. now rewrite H. Qed.

(** C2: every protected operation (POST, PATCH and DELETE on regions and
    events, POST /register and POST /login) is registered wrapped in
    [token_required]; a request the guard refuses never reaches the
    wrapped function, leaves the store as it was and is answered 401;
    the function runs only on a request the guard lets through. *)
Theorem protected_operations_guarded (ep : endpoint) :
  protected ep = true ->
  view_functions ep = token_required (body_of ep)
  /\ (forall ctx db err,
        authenticate ctx = inl err ->
        view_functions ep ctx db = Ok (unauthorized err, db)
        /\ wsgi_app ep ctx db = Responded (unauthorized err) db
        /\ status (unauthorized err) = 401)
  /\ (forall ctx db uid,
        authenticate ctx = inr uid ->
        view_functions ep ctx db = body_of ep ctx db).
Proof.
  intros Hp.
  assert (Hview : view_functions ep = token_required (body_of ep))
    by (destruct ep; try discriminate; reflexivity).
  split; [exact Hview|]. split.
  - intros ctx db err Herr.
    assert (H : view_functions ep ctx db = Ok (unauthorized err, db))
      by (rewrite Hview; now apply token_required_refuses).
    split; [exact H|]. split; [now apply wsgi_app_ok | reflexivity].
  - intros ctx db uid Hok. rewrite Hview.
    now apply token_required_passes with (uid := uid).
Qed.

End GuardProperties.

Lemma protected_operations_guarded_witness :
  view_functions (L := simple_libraries) POST_login
  = token_required (L := simple_libraries)
      (body_of (L := simple_libraries) POST_login)
  /\ wsgi_app (L := simple_libraries) POST_login
       (ctx_of production_app
          (request_with None (credentials "tester@mytesting.com"
                                "PlainTextPassword")))
       one_user_db
     = Responded (unauthorized TokenMissing) one_user_db.
Proof.
  destruct (protected_operations_guarded (L := simple_libraries) POST_login
              eq_refl) as (Hview & Hrefused & _).
  split; [exact Hview|].
  apply (Hrefused (ctx_of production_app
                     (request_with None (credentials "tester@mytesting.com"
                                           "PlainTextPassword")))
           one_user_db TokenMissing).
  reflexivity.
Defined.

(** Even the right credentials do not log in without a token. *)
Example login_needs_a_token :
  wsgi_app (L := simple_libraries) POST_login
    (ctx_of production_app
       (request_with None (credentials "tester@mytesting.com"
                             "PlainTextPassword")))
    one_user_db
  = Responded
      (make_response (JObj [("message", JStr "token missing")]) 401)
      one_user_db.
Proof. reflexivity. Qed.

(* ----------------------------------------------------------------- *)
(** *** POST /login and POST /register *)

Section AccountProperties.
Context {L : Libraries}.

Lemma truthy_JStr (s : string) : s <> "" -> truthy (JStr s) = true.
Proof.
  intros Hs. simpl. destruct (String.eqb_spec s ""); [contradiction|].
  reflexivity.
Qed.

Lemma users_by_email_none (db : Db) (email : string) :
  ~ email_registered db email ->
  filter_by "user" User_columns "email" (SText email) (Db_user db) = Ok [].
Proof.
  intros Hnone. unfold filter_by. simpl. f_equal. apply filter_none.
  intros u Hu. simpl. destruct (String.eqb_spec (User_email u) email);
    [|reflexivity].
  exfalso. apply Hnone. now exists u.
Qed.

Lemma users_by_email_one (db : Db) (u : User) :
  emails_unique db -> In u (Db_user db) ->
  filter_by "user" User_columns "email" (SText (User_email u)) (Db_user db)
  = Ok [u].
Proof.
  intros Hnd Hin. unfold filter_by. simpl. f_equal.
  apply (filter_unique_key User_email _ (Db_user db) u Hnd Hin).
  intros y. simpl. apply String.eqb_eq.
Qed.

(** A protected route whose function returns: what the client gets. *)
Lemma guarded_response (ep : endpoint) (ctx : Ctx) (db db' : Db)
    (r : Response) :
  protected ep = true ->
  body_of ep ctx db = Ok (r, db') ->
  wsgi_app ep ctx db
  = match authenticate ctx with
    | inl err => Responded (unauthorized err) db
    | inr _ => Responded r db'
    end.
Proof.
  intros Hp Hbody.
  assert (Hview : view_functions ep = token_required (body_of ep))
    by (destruct ep; try discriminate; reflexivity).
  destruct (authenticate ctx) as [err | uid] eqn:Hauth; apply wsgi_app_ok;
    rewrite Hview; unfold token_required; rewrite Hauth;
    [reflexivity | exact Hbody].
Qed.

(** Runs [login] up to the point where the credentials have been read
    from the JSON object. *)
Ltac with_credentials H :=
  let fields := fresh "fields" in
  let Hbody := fresh "Hbody" in
  let Hemail := fresh "Hemail" in
  let Hpassword := fresh "Hpassword" in
  destruct H as (fields & Hbody & Hemail & Hpassword);
  unfold login, get_json; rewrite Hbody;
  cbn [bind]; rewrite Hemail, Hpassword;
  destruct fields as [|field fields]; [discriminate Hemail|];
  change (truthy (JObj (field :: fields))) with true;
  cbn [negb bind bind_param].

Lemma login_unknown_email (ctx : Ctx) (db : Db) (email password : string) :
  has_credentials ctx (JStr email) (JStr password) ->
  email <> "" -> password <> "" ->
  ~ email_registered db email ->
  login ctx db = Ok (incorrect_credentials, db).
Proof.
  intros Hc He Hp Hnone. with_credentials Hc.
  rewrite (truthy_JStr _ He), (truthy_JStr _ Hp). cbn [negb bind].
  rewrite (users_by_email_none _ _ Hnone). reflexivity.
Qed.

Lemma login_known_email (ctx : Ctx) (db : Db) (u : User) (password : string) :
  has_credentials ctx (JStr (User_email u)) (JStr password) ->
  User_email u <> "" -> password <> "" ->
  emails_unique db -> In u (Db_user db) ->
  login ctx db
  = match check_password u (JStr password) with
    | Ok true =>
        Ok (make_response
              (JObj [("user_id", JNum (User_id u));
                     ("token",
                      JStr (token_text
                              (encode_auth_token (current_app ctx) (now ctx)
                                 (User_id u))))]) 201, db)
    | Ok false => Ok (incorrect_credentials, db)
    | Raise e => Raise e
    end.
Proof.
  intros Hc He Hp Hnd Hin. with_credentials Hc.
  rewrite (truthy_JStr _ He), (truthy_JStr _ Hp). cbn [negb bind].
  rewrite (users_by_email_one _ _ Hnd Hin). cbn [bind scalar_one_or_none].
  destruct (check_password u (JStr password)) as [[|]|]; reflexivity.
Qed.

(** Where the two failures of [login] are answered alike: with a
    password that is a string, a login with an email no user has and a
    login with a registered email whose password is verified and found
    wrong get the same answer from [login], 401 with the one generic
    message; behind the guard the two requests, when they carry the same
    authorization, get identical responses. *)
Theorem login_generic_failure (ctx1 ctx2 : Ctx) (db : Db)
    (email1 password1 password2 : string) (u : User) :
  has_credentials ctx1 (JStr email1) (JStr password1) ->
  email1 <> "" -> password1 <> "" ->
  ~ email_registered db email1 ->
  has_credentials ctx2 (JStr (User_email u)) (JStr password2) ->
  User_email u <> "" -> password2 <> "" ->
  emails_unique db -> In u (Db_user db) ->
  check_password u (JStr password2) = Ok false ->
  login ctx1 db = Ok (incorrect_credentials, db)
  /\ login ctx2 db = Ok (incorrect_credentials, db)
  /\ (authenticate ctx1 = authenticate ctx2 ->
      wsgi_app POST_login ctx1 db = wsgi_app POST_login ctx2 db)
  /\ (forall uid1 uid2,
        authenticate ctx1 = inr uid1 -> authenticate ctx2 = inr uid2 ->
        wsgi_app POST_login ctx1 db = Responded incorrect_credentials db
        /\ wsgi_app POST_login ctx2 db = Responded incorrect_credentials db).
Proof.
  intros Hc1 He1 Hp1 Hnone Hc2 He2 Hp2 Hnd Hin Hwrong.
  assert (H1 : login ctx1 db = Ok (incorrect_credentials, db))
    by now apply login_unknown_email with (email := email1)
                                          (password := password1).
  assert (H2 : login ctx2 db = Ok (incorrect_credentials, db)).
  { rewrite (login_known_email ctx2 db u password2 Hc2 He2 Hp2 Hnd Hin).
    now rewrite Hwrong. }
  split; [exact H1|]. split; [exact H2|].
  pose proof (guarded_response POST_login ctx1 db db incorrect_credentials
                eq_refl H1) as G1.
  pose proof (guarded_response POST_login ctx2 db db incorrect_credentials
                eq_refl H2) as G2.
  split.
  - intros Hauth. rewrite G1, G2, Hauth. reflexivity.
  - intros uid1 uid2 A1 A2. rewrite G1, G2, A1, A2. split; reflexivity.
Qed.

(** C5 (where the code departs from the claim): the same wrong password,
    a JSON value that is truthy but not a string (a number, a list), sent
    once with an email no user has and once with the email of a stored
    user, both past the guard: the first request is answered 401 with the
    generic message; in the second [check_password] raises
    [AttributeError] where it encodes the password, nothing in [login]
    catches it, and the request ends as a JSON 500 or a propagated
    exception.  The two answers differ, so the answer tells whether the
    email is registered. *)
Theorem login_reveals_registered_email (ctx1 ctx2 : Ctx) (db : Db)
    (email1 : string) (password : json) (u : User) (uid1 uid2 : Z) :
  authenticate ctx1 = inr uid1 -> authenticate ctx2 = inr uid2 ->
  has_credentials ctx1 (JStr email1) password ->
  has_credentials ctx2 (JStr (User_email u)) password ->
  email1 <> "" -> User_email u <> "" ->
  truthy password = true -> (forall s, password <> JStr s) ->
  ~ email_registered db email1 ->
  emails_unique db -> In u (Db_user db) ->
  split_pwhash (User_password_hash u) <> None ->
  wsgi_app POST_login ctx1 db = Responded incorrect_credentials db
  /\ wsgi_app POST_login ctx2 db
     = (if propagate_exceptions (current_app ctx2)
        then Propagated
               (no_attribute
                  (AttributeError "object has no attribute 'encode'")
                  "get_response")
        else Responded
               (json_error InternalServerError
                  internal_server_error_description) db)
  /\ wsgi_app POST_login ctx2 db <> Responded incorrect_credentials db
  /\ (current_app ctx1 = current_app ctx2 ->
      wsgi_app POST_login ctx1 db <> wsgi_app POST_login ctx2 db).
Proof.
  intros Hauth1 Hauth2 (fields1 & Hbody1 & Hemail1 & Hpassword1)
    (fields2 & Hbody2 & Hemail2 & Hpassword2) He1 He2 Ht Hpw Hnone Hnd Hin
    Hhash.
  assert (H1 : wsgi_app POST_login ctx1 db
               = Responded incorrect_credentials db).
  { rewrite (guarded_response POST_login ctx1 db db incorrect_credentials
               eq_refl).
    - now rewrite Hauth1.
    - cbn [body_of]. unfold login, get_json. rewrite Hbody1. cbn [bind].
      destruct fields1 as [|field fields1]; [discriminate Hemail1|].
      change (truthy (JObj (field :: fields1))) with true. cbn [negb].
      rewrite Hemail1. cbn [bind]. rewrite (truthy_JStr _ He1). cbn [negb].
      rewrite Hpassword1. cbn [bind]. rewrite Ht. cbn [negb bind bind_param].
      now rewrite (users_by_email_none _ _ Hnone). }
  assert (H2 : wsgi_app POST_login ctx2 db
               = (if propagate_exceptions (current_app ctx2)
                  then Propagated
                         (no_attribute
                            (AttributeError
                               "object has no attribute 'encode'")
                            "get_response")
                  else Responded
                         (json_error InternalServerError
                            internal_server_error_description) db)).
  { apply wsgi_app_unhandled; [|reflexivity|reflexivity].
    cbn [view_functions]. unfold token_required. rewrite Hauth2.
    unfold login, get_json. rewrite Hbody2. cbn [bind].
    destruct fields2 as [|field fields2]; [discriminate Hemail2|].
    change (truthy (JObj (field :: fields2))) with true. cbn [negb].
    rewrite Hemail2. cbn [bind]. rewrite (truthy_JStr _ He2). cbn [negb].
    rewrite Hpassword2. cbn [bind]. rewrite Ht. cbn [negb bind bind_param].
    rewrite (users_by_email_one _ _ Hnd Hin). cbn [bind scalar_one_or_none].
    unfold check_password.
    destruct (split_pwhash (User_password_hash u)); [|contradiction].
    destruct password; try reflexivity. now elim (Hpw s). }
  assert (Hdiffer : wsgi_app POST_login ctx2 db
                    <> Responded incorrect_credentials db).
  { rewrite H2. destruct (propagate_exceptions (current_app ctx2));
      discriminate. }
  split; [exact H1|]. split; [exact H2|]. split; [exact Hdiffer|].
  intros _ Hsame. apply Hdiffer. now rewrite <- Hsame.
Qed.

(** Where the check of [login] does answer 401: the document is falsy
    ([null], an empty object), or it is an object whose [email] or
    [password] is absent or falsy.  The store is not consulted. *)
Lemma login_missing_fields (ctx : Ctx) (db : Db) (auth : json) :
  payload_of (request ctx) = Json auth ->
  truthy auth = false
  \/ (exists fields email password,
        auth = JObj fields
        /\ Py.get auth "email" = Ok email
        /\ Py.get auth "password" = Ok password
        /\ (truthy email = false \/ truthy password = false)) ->
  login ctx db = Ok (missing_credentials, db).
Proof.
  intros Hbody Hmissing. unfold login, get_json. rewrite Hbody. cbn [bind].
  destruct Hmissing as [Hfalsy | (fields & email & password & -> & He & Hp & H)].
  - now rewrite Hfalsy.
  - destruct (truthy (JObj fields)); [|reflexivity]. cbn [negb].
    rewrite He. cbn [bind]. destruct (truthy email); [|reflexivity].
    cbn [negb]. rewrite Hp. cbn [bind].
    destruct H as [H | H]; [discriminate H|]. now rewrite H.
Qed.

(** C7 (the behaviour of the code where the claim expects 401): for a
    login request that passes the guard and has no JSON body,
    [request.get_json()] raises before the check for missing credentials
    is reached, and the response is the JSON page of the 415 error. *)
Theorem login_without_json_body (ctx : Ctx) (db : Db) (uid : Z) :
  authenticate ctx = inr uid ->
  payload_of (request ctx) = NoJson ->
  login ctx db = Raise (HTTPException UnsupportedMediaType not_json_description)
  /\ wsgi_app POST_login ctx db
     = Responded (json_error UnsupportedMediaType not_json_description) db
  /\ status (json_error UnsupportedMediaType not_json_description) = 415.
Proof.
  intros Hauth Hbody.
  assert (Hlogin : login ctx db
                   = Raise (HTTPException UnsupportedMediaType
                              not_json_description))
    by (unfold login, get_json; now rewrite Hbody).
  split; [exact Hlogin|]. split; [|reflexivity].
  apply wsgi_app_http_error; [|discriminate].
  cbn [view_functions]. unfold token_required. now rewrite Hauth.
Qed.

(** The three answers of [register]. *)
Lemma register_cases (ctx : Ctx) (db : Db) (email : string) (password : json) :
  has_credentials ctx (JStr email) password ->
  emails_unique db ->
  (email_registered db email ->
   register ctx db
   = Ok (make_response (message "User already exists. Please Log in.") 409,
         db))
  /\ (~ email_registered db email ->
      register ctx db
      = match (h <- set_password (salt ctx) password ;;
               insert_user db (SText email) (SText h)) with
        | Ok (_, db') =>
            Ok (make_response (message "Successfully registered.") 201, db')
        | Raise _ =>
            Ok (make_response
                  (message "An error occurred. Please try again.") 500, db)
        end).
Proof.
  intros (fields & Hbody & Hemail & Hpassword) Hnd.
  unfold register, get_json. rewrite Hbody. cbn [bind].
  rewrite Hemail. cbn [bind bind_param]. split.
  - intros (u & Hin & <-). rewrite (users_by_email_one _ _ Hnd Hin).
    reflexivity.
  - intros Hnone. rewrite (users_by_email_none _ _ Hnone).
    cbn [bind scalar_one_or_none]. rewrite Hpassword. cbn [bind].
    destruct (set_password (salt ctx) password) as [h | e]; cbn [bind bind_param].
    + destruct (insert_user db (SText email) (SText h)) as [[u db'] | e];
        cbn [bind try_except]; [reflexivity|].
      now rewrite isinstance_Exception.
    + cbn [try_except]. now rewrite isinstance_Exception.
Qed.

(** C6: for a register request that passes the guard, with an email and
    a password in its JSON object: if a user with that email exists the
    response is 409; if none exists and hashing and persisting the new
    user succeed the response is 201 with the success message and the
    user is stored; if none exists and an error occurs there the response
    is 500 and the store is unchanged. *)
Theorem register_outcomes (ctx : Ctx) (db : Db) (email : string)
    (password : json) (uid : Z) :
  authenticate ctx = inr uid ->
  has_credentials ctx (JStr email) password ->
  emails_unique db ->
  (email_registered db email ->
   wsgi_app POST_register ctx db
   = Responded
       (make_response (message "User already exists. Please Log in.") 409) db)
  /\ (~ email_registered db email ->
      forall u db',
        (h <- set_password (salt ctx) password ;;
         insert_user db (SText email) (SText h)) = Ok (u, db') ->
        wsgi_app POST_register ctx db
        = Responded (make_response (message "Successfully registered.") 201)
            db')
  /\ (~ email_registered db email ->
      forall e,
        (h <- set_password (salt ctx) password ;;
         insert_user db (SText email) (SText h)) = Raise e ->
        wsgi_app POST_register ctx db
        = Responded
            (make_response (message "An error occurred. Please try again.")
               500) db).
Proof.
  intros Hauth Hc Hnd.
  destruct (register_cases ctx db email password Hc Hnd) as [Hdup Hnew].
  assert (Hguard : forall r db',
             register ctx db = Ok (r, db') ->
             wsgi_app POST_register ctx db = Responded r db').
  { intros r db' Hreg.
    rewrite (guarded_response POST_register ctx db db' r eq_refl Hreg).
    now rewrite Hauth. }
  split; [|split].
  - intros Hreg. apply Hguard. now apply Hdup.
  - intros Hnone u db' Hok. apply Hguard. rewrite (Hnew Hnone), Hok.
    reflexivity.
  - intros Hnone e Herr. apply Hguard. rewrite (Hnew Hnone), Herr.
    reflexivity.
Qed.

End AccountProperties.

Lemma login_generic_failure_witness :
  wsgi_app (L := simple_libraries) POST_login
    (ctx_of production_app
       (request_with (Some valid_token) (credentials "nobody@x.com" "guess")))
    one_user_db
  = Responded incorrect_credentials one_user_db
  /\ wsgi_app (L := simple_libraries) POST_login
       (ctx_of production_app
          (request_with (Some valid_token)
             (credentials "tester@mytesting.com" "guess")))
       one_user_db
     = Responded incorrect_credentials one_user_db.
Proof.
  assert (Hc : forall email password,
             has_credentials
               (ctx_of production_app
                  (request_with (Some valid_token)
                     (credentials email password)))
               (JStr email) (JStr password))
    by (intros email password; eexists; repeat split; reflexivity).
  destruct (login_generic_failure (L := simple_libraries)
              (ctx_of production_app
                 (request_with (Some valid_token)
                    (credentials "nobody@x.com" "guess")))
              (ctx_of production_app
                 (request_with (Some valid_token)
                    (credentials "tester@mytesting.com" "guess")))
              one_user_db "nobody@x.com" "guess" "guess" tester)
    as (_ & _ & _ & Hboth).
  - apply Hc.
  - discriminate.
  - discriminate.
  - intros (u & [<- | []] & Hu). discriminate Hu.
  - apply (Hc "tester@mytesting.com" "guess").
  - discriminate.
  - discriminate.
  - repeat constructor. intros [].
  - left. reflexivity.
  - reflexivity.
  - apply (Hboth 1 1); reflexivity.
Defined.

Lemma login_reveals_registered_email_witness :
  wsgi_app (L := simple_libraries) POST_login
    (authorized (Json (JObj [("email", JStr "nobody@x.com");
                             ("password", JNum 5)])))
    one_user_db
  = Responded incorrect_credentials one_user_db
  /\ wsgi_app (L := simple_libraries) POST_login
       (authorized (Json (JObj [("email", JStr "tester@mytesting.com");
                                ("password", JNum 5)])))
       one_user_db
     = Responded
         (json_error InternalServerError internal_server_error_description)
         one_user_db.
Proof.
  destruct (login_reveals_registered_email (L := simple_libraries)
              (authorized (Json (JObj [("email", JStr "nobody@x.com");
                                       ("password", JNum 5)])))
              (authorized (Json (JObj [("email", JStr "tester@mytesting.com");
                                       ("password", JNum 5)])))
              one_user_db "nobody@x.com" (JNum 5) tester 1 1 eq_refl eq_refl)
    as (Hunknown & Hknown & _).
  - eexists. repeat split; reflexivity.
  - eexists. repeat split; reflexivity.
  - discriminate.
  - discriminate.
  - reflexivity.
  - discriminate.
  - intros (u & [<- | []] & Hu). discriminate Hu.
  - repeat constructor. intros [].
  - left. reflexivity.
  - discriminate.
  - split; [exact Hunknown | exact Hknown].
Defined.

Lemma login_without_json_body_witness :
  wsgi_app (L := simple_libraries) POST_login
    (ctx_of production_app (request_with (Some valid_token) NoJson))
    one_user_db
  = Responded (json_error UnsupportedMediaType not_json_description)
      one_user_db.
Proof.
  apply (login_without_json_body (L := simple_libraries)
           (ctx_of production_app (request_with (Some valid_token) NoJson))
           one_user_db 1); reflexivity.
Defined.

(** The check for missing credentials does answer 401 on an empty object
    and on a missing password; a JSON array has no [get]. *)
Example login_empty_object_401 :
  wsgi_app (L := simple_libraries) POST_login
    (ctx_of production_app (request_with (Some valid_token) (Json (JObj []))))
    one_user_db
  = Responded missing_credentials one_user_db.
Proof. reflexivity. Qed.

Example login_missing_password_401 :
  wsgi_app (L := simple_libraries) POST_login
    (ctx_of production_app
       (request_with (Some valid_token)
          (Json (JObj [("email", JStr "tester@mytesting.com")]))))
    one_user_db
  = Responded missing_credentials one_user_db.
Proof. reflexivity. Qed.

Example login_json_array_500 :
  wsgi_app (L := simple_libraries) POST_login
    (ctx_of production_app
       (request_with (Some valid_token) (Json (JArr [JNum 1]))))
    one_user_db
  = Responded
      (json_error InternalServerError internal_server_error_description)
      one_user_db.
Proof. reflexivity. Qed.

Example login_correct_credentials_201 :
  wsgi_app (L := simple_libraries) POST_login
    (ctx_of production_app
       (request_with (Some valid_token)
          (credentials "tester@mytesting.com" "PlainTextPassword")))
    one_user_db
  = Responded
      (make_response
         (JObj [("user_id", JNum 1); ("token", JStr "1.secret:1:400")]) 201)
      one_user_db.
Proof. reflexivity. Qed.

(** Register, then register again with the same email: 201, then 409. *)
Lemma register_outcomes_witness :
  exists db',
    wsgi_app (L := simple_libraries) POST_register
      (ctx_of production_app
         (request_with (Some valid_token) (credentials "a@b.com" "Xy12345!")))
      empty_db
    = Responded (make_response (message "Successfully registered.") 201) db'
    /\ wsgi_app (L := simple_libraries) POST_register
         (ctx_of production_app
            (request_with (Some valid_token)
               (credentials "a@b.com" "Xy12345!")))
         db'
       = Responded
           (make_response (message "User already exists. Please Log in.")
              409) db'.
Proof.
  assert (Hc : has_credentials
                 (ctx_of production_app
                    (request_with (Some valid_token)
                       (credentials "a@b.com" "Xy12345!")))
                 (JStr "a@b.com") (JStr "Xy12345!"))
    by (eexists; repeat split; reflexivity).
  pose proof (register_outcomes (L := simple_libraries)
                (ctx_of production_app
                   (request_with (Some valid_token)
                      (credentials "a@b.com" "Xy12345!")))) as Hreg.
  eexists. split.
  - eapply (Hreg empty_db "a@b.com" (JStr "Xy12345!") 1 eq_refl Hc).
    + constructor.
    + intros (u & [] & _).
    + reflexivity.
  - eapply (Hreg _ "a@b.com" (JStr "Xy12345!") 1 eq_refl Hc).
    + repeat constructor. intros [].
    + eexists. split; [left; reflexivity | reflexivity].
Defined.

(** A user whose hash is already stored cannot be persisted: 500. *)
Example register_same_hash_500 :
  wsgi_app (L := simple_libraries) POST_register
    (ctx_of production_app
       (request_with (Some valid_token)
          (credentials "other@mytesting.com" "PlainTextPassword")))
    one_user_db
  = Responded
      (make_response (message "An error occurred. Please try again.") 500)
      one_user_db.
Proof. reflexivity. Qed.

(* ----------------------------------------------------------------- *)
(** *** Passwords *)

Section PasswordProperties.
Context {L : Libraries}.

Lemma append_assoc (a b c : string) :
  ((a ++ b) ++ c = a ++ (b ++ c))%string.
Proof. induction a as [|x a IH]; simpl; [reflexivity | now rewrite IH]. Qed.

Lemma length_append (a b : string) :
  String.length (a ++ b) = (String.length a + String.length b)%nat.
Proof. induction a as [|x a IH]; simpl; [reflexivity | now rewrite IH]. Qed.

Lemma split_dollar_append (a b : string) :
  no_dollar a = true -> split_dollar (a ++ "$" ++ b) = Some (a, b).
Proof.
  change ("$" ++ b)%string with (String dollar b).
  induction a as [|c a IH]; simpl; intros Ha; [reflexivity|].
  apply andb_true_iff in Ha. destruct Ha as [Hc Ha].
  apply negb_true_iff in Hc. rewrite Hc. now rewrite (IH Ha).
Qed.

(** A generated hash splits back into its method, salt and digest. *)
Lemma split_pwhash_generated (salt password : string) :
  no_dollar salt = true ->
  split_pwhash (generate_password_hash salt password)
  = Some (default_method, salt, hash_internal default_method salt password).
Proof.
  intros Hs. unfold split_pwhash, generate_password_hash.
  rewrite split_dollar_append by reflexivity.
  now rewrite split_dollar_append by exact Hs.
Qed.

(** Verification compares digests under the stored salt. *)
Lemma check_generated (salt P P' : string) :
  no_dollar salt = true ->
  check_password_hash (generate_password_hash salt P) P'
  = Ok (hash_internal default_method salt P'
        =? hash_internal default_method salt P)%string.
Proof.
  intros Hs. unfold check_password_hash.
  now rewrite (split_pwhash_generated salt P Hs).
Qed.

(** HMAC pads a short key with zero bytes, so a password and the same
    password followed by a zero byte give the same key block. *)
Lemma hmac_key_block_nul (P : string) :
  (String.length P < 64)%nat ->
  hmac_key_block (P ++ String zero "") = hmac_key_block P.
Proof.
  intros Hlen. unfold hmac_key_block. rewrite !length_append.
  change (String.length (String zero "")) with 1%nat.
  remember (String.length P) as n eqn:Hn.
  destruct (Nat.ltb_spec 64 (n + 1)); [lia|].
  destruct (Nat.ltb_spec 64 n); [lia|].
  rewrite length_append, <- Hn.
  change (String.length (String zero "")) with 1%nat.
  replace (64 - n)%nat with (S (64 - (n + 1))) by lia.
  rewrite append_assoc. reflexivity.
Qed.

Lemma nul_padded_password_verifies (salt P : string) :
  no_dollar salt = true ->
  (String.length P < 64)%nat ->
  check_password_hash (generate_password_hash salt P) (P ++ String zero "")
  = Ok true.
Proof.
  intros Hs Hlen. rewrite (check_generated salt P _ Hs).
  unfold hash_internal. rewrite (hmac_key_block_nul P Hlen).
  now rewrite String.eqb_refl.
Qed.

(** C8 (amended): on a user whose hash was set with [set_password(P)],
    [check_password(P)] returns true, and [check_password(P')] returns
    true exactly when the digest of [P'] under the stored salt equals the
    digest of [P]; so it returns false for every [P'] whose digest
    differs. *)
Theorem check_password_compares_digests (salt P : string) (h : string)
    (u : User) :
  no_dollar salt = true ->
  set_password salt (JStr P) = Ok h ->
  User_password_hash u = h ->
  check_password u (JStr P) = Ok true
  /\ (forall P',
        check_password u (JStr P')
        = Ok (hash_internal default_method salt P'
              =? hash_internal default_method salt P)%string)
  /\ (forall P',
        hash_internal default_method salt P'
        <> hash_internal default_method salt P ->
        check_password u (JStr P') = Ok false).
Proof.
  intros Hs Hset Hu. simpl in Hset. injection Hset as <-.
  assert (Hcheck : forall P',
             check_password u (JStr P')
             = Ok (hash_internal default_method salt P'
                   =? hash_internal default_method salt P)%string).
  { intros P'. unfold check_password. rewrite Hu.
    rewrite (split_pwhash_generated salt P Hs).
    now rewrite (check_generated salt P P' Hs). }
  split; [|split].
  - rewrite Hcheck. now rewrite String.eqb_refl.
  - exact Hcheck.
  - intros P' Hne. rewrite Hcheck. f_equal. now apply String.eqb_neq.
Qed.

End PasswordProperties.

(** No digest function makes every other password fail: the password
    ["a"] followed by a zero byte verifies against the hash of ["a"]. *)
Lemma check_password_accepts_padded_password :
  ~ (exists L : Libraries,
       forall (salt P P' : string) (u : User),
         no_dollar salt = true ->
         User_password_hash u = generate_password_hash salt P ->
         P' <> P ->
         check_password u (JStr P') = Ok false).
Proof.
  intros [L H].
  specialize (H "abc" "a" ("a" ++ String zero "")
                {| User_id := 1; User_email := "a@b.com";
                   User_password_hash := generate_password_hash "abc" "a" |}
                eq_refl eq_refl).
  assert (Hne : "a" ++ String zero "" <> "a") by discriminate.
  specialize (H Hne). unfold check_password in H. cbn [User_password_hash] in H.
  rewrite (split_pwhash_generated "abc" "a" eq_refl) in H.
  rewrite (nul_padded_password_verifies "abc" "a" eq_refl) in H;
    [discriminate H | simpl; lia].
Qed.

Lemma check_password_compares_digests_witness :
  check_password (L := simple_libraries) tester (JStr "PlainTextPassword")
  = Ok true
  /\ check_password (L := simple_libraries) tester (JStr "guess") = Ok false.
Proof.
  destruct (check_password_compares_digests (L := simple_libraries) "abc"
              "PlainTextPassword" (User_password_hash tester) tester
              eq_refl eq_refl eq_refl) as (Hsame & _ & Hother).
  split; [exact Hsame|]. apply Hother. discriminate.
Defined.

(* ----------------------------------------------------------------- *)
(** *** Tokens *)

Section TokenProperties.
Context {L : Libraries}.

(** A token whose signature is not the one its payload has under the
    application's key is invalid, whatever the time. *)
Lemma decode_tampered (app : App) (time : Z) (p : claims) (s : string) :
  s <> sign (SECRET_KEY app) p ->
  decode_auth_token app time (Signed p s) = inl TokenInvalid.
Proof.
  intros Hs. simpl. destruct (String.eqb_spec s (sign (SECRET_KEY app) p));
    [contradiction | reflexivity].
Qed.

(** C9: decoding a token issued for user [U] before its expiry yields
    [U]; after the expiry it fails with the expiry error, which is not the
    error of an invalid signature and has a message of its own. *)
Theorem token_round_trip (app : App) (issued_at time U : Z) :
  (time < issued_at + TOKEN_LIFETIME app ->
   decode_auth_token app time (encode_auth_token app issued_at U) = inr U)
  /\ (issued_at + TOKEN_LIFETIME app < time ->
      decode_auth_token app time (encode_auth_token app issued_at U)
      = inl TokenExpired)
  /\ TokenExpired <> TokenInvalid
  /\ unauthorized TokenExpired <> unauthorized TokenInvalid.
Proof.
  unfold encode_auth_token, decode_auth_token. cbn [exp sub].
  rewrite String.eqb_refl. repeat split.
  - intros Hbefore.
    destruct (Z.ltb_spec (issued_at + TOKEN_LIFETIME app) time);
      [lia | reflexivity].
  - intros Hafter.
    destruct (Z.ltb_spec (issued_at + TOKEN_LIFETIME app) time);
      [reflexivity | lia].
  - discriminate.
  - discriminate.
Qed.

End TokenProperties.

Lemma token_round_trip_witness :
  decode_auth_token (L := simple_libraries) production_app 100 valid_token
  = inr 1
  /\ decode_auth_token (L := simple_libraries) production_app 351 valid_token
     = inl TokenExpired.
Proof.
  destruct (token_round_trip (L := simple_libraries) production_app 50 100 1)
    as (Hbefore & _).
  destruct (token_round_trip (L := simple_libraries) production_app 50 351 1)
    as (_ & Hafter & _).
  split; [apply Hbefore | apply Hafter]; reflexivity.
Defined.

(** A token signed with another key is refused as invalid, not expired. *)
Example forged_token_invalid :
  decode_auth_token (L := simple_libraries) production_app 100
    (Signed {| sub := 1; exp := 350; iat := 50 |} "forged")
  = inl TokenInvalid.
Proof. reflexivity. Qed.

(* ----------------------------------------------------------------- *)
(** *** The [user] table *)

Section StoreProperties.
Context {L : Libraries}.

(** A row that passed the check collides with no stored row on a unique
    column. *)
Lemma check_constraints_unique {R : Type} (cols : list (Column R))
    (rows : list R) (r : R) (c : Column R) :
  check_constraints cols rows r = Ok tt ->
  In c cols -> (primary_key c || unique c) = true ->
  forall r', In r' rows -> stored_eq (col_value c r') (col_value c r) = false.
Proof.
  unfold check_constraints. intros Hcheck Hc Hu r' Hr'.
  destruct (find (violates_not_null r) cols); [discriminate|].
  destruct (find (violates_unique rows r) cols) eqn:Hfind; [discriminate|].
  pose proof (find_none _ _ Hfind c Hc) as Hnone.
  unfold violates_unique in Hnone. rewrite Hu in Hnone. simpl in Hnone.
  destruct (stored_eq (col_value c r') (col_value c r)) eqn:Heq;
    [|reflexivity].
  assert (Hex : existsb (fun r' => stored_eq (col_value c r') (col_value c r))
                  rows = true)
    by (apply existsb_exists; now exists r').
  congruence.
Qed.

(** And a row that collides on one is refused. *)
Lemma check_constraints_collision {R : Type} (cols : list (Column R))
    (rows : list R) (r r' : R) (c : Column R) :
  In c cols -> (primary_key c || unique c) = true ->
  In r' rows -> stored_eq (col_value c r') (col_value c r) = true ->
  exists msg, check_constraints cols rows r = Raise (IntegrityError msg).
Proof.
  intros Hc Hu Hr' Heq. unfold check_constraints.
  destruct (find (violates_not_null r) cols); [eexists; reflexivity|].
  destruct (find (violates_unique rows r) cols) eqn:Hfind;
    [eexists; reflexivity|].
  pose proof (find_none _ _ Hfind c Hc) as Hnone.
  unfold violates_unique in Hnone. rewrite Hu in Hnone. simpl in Hnone.
  assert (Hex : existsb (fun r' => stored_eq (col_value c r') (col_value c r))
                  rows = true)
    by (apply existsb_exists; now exists r').
  congruence.
Qed.

(** What a successful insertion into [user] did. *)
Lemma insert_user_ok (db db' : Db) (email password_hash : sqlval) (u : User) :
  insert_user db email password_hash = Ok (u, db') ->
  Db_user db' = (Db_user db ++ [u])%list
  /\ (forall v, In v (Db_user db) -> User_email v <> User_email u)
  /\ (forall v, In v (Db_user db) ->
        User_password_hash v <> User_password_hash u).
Proof.
  unfold insert_user. intros H. invert_run.
  match goal with
  | E : check_constraints _ _ ?row = Ok ?t |- _ =>
      destruct t; set (new := row) in *;
      pose proof (check_constraints_unique User_columns (Db_user db) new) as Hu;
      specialize (fun c => Hu c E)
  end.
  split; [reflexivity|]. split; intros v Hv Heq.
  - pose proof (Hu (mapped_column "email" (fun u => SText (User_email u))
                      false true false)
                  (or_intror (or_introl eq_refl)) eq_refl v Hv) as Hne.
    simpl in Hne. apply String.eqb_neq in Hne. contradiction.
  - pose proof (Hu (mapped_column "password_hash"
                      (fun u => SText (User_password_hash u))
                      false true false)
                  (or_intror (or_intror (or_introl eq_refl))) eq_refl v Hv)
      as Hne.
    simpl in Hne. apply String.eqb_neq in Hne. contradiction.
Qed.

Lemma NoDup_snoc {A B : Type} (f : A -> B) (l : list A) (x : A) :
  NoDup (map f l) -> (forall y, In y l -> f y <> f x) ->
  NoDup (map f (l ++ [x])%list).
Proof.
  intros Hnd Hnew. rewrite map_app. apply NoDup_app.
  - exact Hnd.
  - simpl. constructor; [intros [] | constructor].
  - intros b Hb [<- | []]. apply in_map_iff in Hb.
    destruct Hb as (y & Hy & Hin). now apply (Hnew y Hin).
Qed.

Lemma insert_user_keeps_unique (db db' : Db) (email password_hash : sqlval)
    (u : User) :
  insert_user db email password_hash = Ok (u, db') ->
  (emails_unique db -> emails_unique db')
  /\ (hashes_unique db -> hashes_unique db').
Proof.
  intros H. destruct (insert_user_ok _ _ _ _ _ H) as (Hdb & He & Hh).
  unfold emails_unique, hashes_unique. rewrite Hdb.
  split; intros Hnd; now apply NoDup_snoc.
Qed.

(** A hash that is already stored cannot be stored again. *)
Lemma insert_user_same_hash (db : Db) (email : sqlval) (h : string) :
  (exists u, In u (Db_user db) /\ User_password_hash u = h) ->
  exists msg, insert_user db email (SText h) = Raise (IntegrityError msg).
Proof.
  intros (u & Hin & Hu). unfold insert_user.
  destruct (not_null_text "user.email" email) as [e|err] eqn:He.
  - cbn [bind not_null_text text_affinity].
    destruct (check_constraints_collision User_columns (Db_user db)
                {| User_id := next_id (map User_id (Db_user db));
                   User_email := e; User_password_hash := h |} u
                (mapped_column "password_hash"
                   (fun u => SText (User_password_hash u)) false true false))
      as [msg Hmsg].
    + right. right. left. reflexivity.
    + reflexivity.
    + exact Hin.
    + simpl. rewrite Hu. apply String.eqb_refl.
    + exists msg. now rewrite Hmsg.
  - unfold not_null_text in He. destruct (text_affinity email);
      try discriminate He; injection He as <-; eexists; reflexivity.
Qed.

(** Inserting, updating and deleting events and regions leaves [user]
    alone. *)
Lemma insert_event_users (db db' : Db) (e e' : Event) :
  insert_event db e = Ok (e', db') -> Db_user db' = Db_user db.
Proof. unfold insert_event. intros H. invert_run. reflexivity. Qed.

Lemma update_event_users (db db' : Db) (old new : Event) :
  update_event db old new = Ok db' -> Db_user db' = Db_user db.
Proof. unfold update_event. intros H. invert_run. reflexivity. Qed.

Lemma insert_region_users (db db' : Db) (r : Region) :
  insert_region db r = Ok db' -> Db_user db' = Db_user db.
Proof. unfold insert_region. intros H. invert_run. reflexivity. Qed.

Lemma update_region_users (db db' : Db) (old new : Region) :
  update_region db old new = Ok db' -> Db_user db' = Db_user db.
Proof. unfold update_region. intros H. invert_run. reflexivity. Qed.

Lemma commit_region_users (db db' : Db) (r : Region) (onto : option Region) :
  commit_region db r onto = Ok db' -> Db_user db' = Db_user db.
Proof.
  destruct onto; cbn [commit_region];
    [apply update_region_users | apply insert_region_users].
Qed.

Lemma delete_region_row_users (db db' : Db) (r : Region) :
  delete_region_row db r = Ok db' -> Db_user db' = Db_user db.
Proof. unfold delete_region_row. intros H. invert_run. reflexivity. Qed.

(** Every view function but [register] returns the [user] table it got. *)
Lemma other_views_keep_users (ep : endpoint) (ctx : Ctx) (db db' : Db)
    (r : Response) :
  ep <> POST_register ->
  body_of ep ctx db = Ok (r, db') ->
  Db_user db' = Db_user db.
Proof.
  intros Hep H. destruct ep; try congruence; cbn [body_of] in H;
    unfold get_regions, get_region, get_events, get_event, add_event,
      add_region, delete_event, delete_region, event_update, region_update,
      login in H;
    invert_run;
    eauto using insert_event_users, update_event_users, commit_region_users,
      delete_region_row_users.
Qed.

(** [register] returns the store it got, or the store after one
    successful insertion. *)
Lemma register_keeps_unique (ctx : Ctx) (db db' : Db) (r : Response) :
  register ctx db = Ok (r, db') ->
  (emails_unique db -> emails_unique db')
  /\ (hashes_unique db -> hashes_unique db').
Proof.
  unfold register. intros H. invert_run; try (split; intros Hu; exact Hu).
  match goal with
  | E : insert_user _ _ _ = Ok _ |- _ =>
      exact (insert_user_keeps_unique _ _ _ _ _ E)
  end.
Qed.

(** Both UNIQUE constraints of [user] are invariants of every request. *)
Lemma wsgi_app_keeps_unique (ep : endpoint) (ctx : Ctx) (db db' : Db)
    (r : Response) :
  wsgi_app ep ctx db = Responded r db' ->
  (emails_unique db -> emails_unique db')
  /\ (hashes_unique db -> hashes_unique db').
Proof.
  assert (Hsame : forall d, Db_user d = Db_user db ->
            (emails_unique db -> emails_unique d)
            /\ (hashes_unique db -> hashes_unique d)).
  { intros d Hd. unfold emails_unique, hashes_unique. rewrite Hd.
    split; intros Hu; exact Hu. }
  assert (Hbody : forall r0 d, body_of ep ctx db = Ok (r0, d) ->
            (emails_unique db -> emails_unique d)
            /\ (hashes_unique db -> hashes_unique d)).
  { intros r0 d Hb. destruct ep;
      try (apply Hsame; eapply other_views_keep_users; [|exact Hb];
           discriminate).
    now apply (register_keeps_unique ctx db d r0). }
  assert (Hview : forall r0 d, view_functions ep ctx db = Ok (r0, d) ->
            (emails_unique db -> emails_unique d)
            /\ (hashes_unique db -> hashes_unique d)).
  { intros r0 d Hv. destruct (protected ep) eqn:Hp.
    - replace (view_functions ep) with (token_required (body_of ep)) in Hv
        by (destruct ep; try discriminate; reflexivity).
      unfold token_required in Hv. destruct (authenticate ctx).
      + injection Hv as _ <-. now apply Hsame.
      + now apply (Hbody r0).
    - replace (view_functions ep) with (body_of ep) in Hv
        by (destruct ep; try discriminate; reflexivity).
      now apply (Hbody r0). }
  unfold wsgi_app, full_dispatch_request.
  destruct (view_functions ep ctx db) as [[r0 d] | e] eqn:Hv.
  - intros [= _ <-]. now apply (Hview r0).
  - destruct (handle_user_exception (current_app ctx) e) as [rv | e'];
      cbn [bind].
    + intros [= _ <-]. now apply Hsame.
    + rewrite flask_handle_exception_outcome.
      destruct (propagate_exceptions (current_app ctx)); [discriminate|].
      intros [= _ <-]. now apply Hsame.
Qed.

(** C10: the [password_hash] column of the [user] table is declared
    unique; every request that gets a response leaves a store in which no
    two users share a password hash, if it started from one; and a user
    whose hash equals a stored one is refused with an [IntegrityError]
    when it is persisted. *)
Theorem password_hash_unique (ep : endpoint) (ctx : Ctx) (db db' : Db)
    (r : Response) :
  option_map unique (column User_columns "password_hash") = Some true
  /\ (hashes_unique db ->
      wsgi_app ep ctx db = Responded r db' ->
      hashes_unique db')
  /\ (forall email h,
        (exists u, In u (Db_user db) /\ User_password_hash u = h) ->
        exists msg,
          insert_user db email (SText h) = Raise (IntegrityError msg)).
Proof.
  split; [reflexivity|]. split.
  - intros Hu Hrun. now apply (wsgi_app_keeps_unique ep ctx db db' r Hrun).
  - intros email h. apply insert_user_same_hash.
Qed.

(** X20: The declared uniqueness of [email] is an invariant too. *)
Lemma email_unique (ep : endpoint) (ctx : Ctx) (db db' : Db) (r : Response) :
  emails_unique db ->
  wsgi_app ep ctx db = Responded r db' ->
  emails_unique db'.
Proof.
  intros Hu Hrun. now apply (wsgi_app_keeps_unique ep ctx db db' r Hrun).
Qed.

End StoreProperties.

Lemma password_hash_unique_witness :
  hashes_unique
    {| Db_region := []; Db_event := [];
       Db_user :=
         [tester;
          {| User_id := 2; User_email := "a@b.com";
             User_password_hash :=
               generate_password_hash (L := simple_libraries) "abc"
                 "Xy12345!" |}];
       Db_foreign_keys := false |}
  /\ exists msg,
       insert_user one_user_db (SText "other@mytesting.com")
         (SText (User_password_hash tester))
       = Raise (IntegrityError msg).
Proof.
  destruct (password_hash_unique (L := simple_libraries) POST_register
              (ctx_of production_app
                 (request_with (Some valid_token)
                    (credentials "a@b.com" "Xy12345!")))
              one_user_db
              {| Db_region := []; Db_event := [];
                 Db_user :=
                   [tester;
                    {| User_id := 2; User_email := "a@b.com";
                       User_password_hash :=
                         generate_password_hash (L := simple_libraries) "abc"
                           "Xy12345!" |}];
                 Db_foreign_keys := false |}
              (make_response (message "Successfully registered.") 201))
    as (_ & Hkept & Hrefused).
  split.
  - apply Hkept; [|reflexivity]. repeat constructor. intros [].
  - apply Hrefused. exists tester. split; [left|]; reflexivity.
Defined.

(* ----------------------------------------------------------------- *)
(** *** Response bodies *)

Section ResponseProperties.
Context {L : Libraries}.

(** Every view function answers in JSON. *)
Lemma views_answer_json (ep : endpoint) (ctx : Ctx) (db db' : Db)
    (r : Response) :
  view_functions ep ctx db = Ok (r, db') -> is_json r = true.
Proof.
  intros H. destruct ep; cbn [view_functions] in H;
    unfold token_required, get_regions, get_region, get_events, get_event,
      add_event, add_region, delete_event, delete_region, event_update,
      region_update, register, login in H;
    invert_run; reflexivity.
Qed.

(** So does every error handler that returns. *)
Lemma handlers_answer_json (app : App) (e : exn) (r : Response) :
  handle_user_exception app e = Ok r -> is_json r = true.
Proof.
  unfold handle_user_exception, handle_http_exception, find_error_handler,
    error_handler_spec.
  destruct (error_handlers_imported app), e as [h d| | | | | | | | | | |];
    try destruct h; cbn; intros H; invert_run; reflexivity.
Qed.

(** X19: Whenever the application responds, the body is JSON. *)
Lemma responses_are_json (ep : endpoint) (ctx : Ctx) (db db' : Db)
    (r : Response) :
  wsgi_app ep ctx db = Responded r db' -> is_json r = true.
Proof.
  unfold wsgi_app, full_dispatch_request.
  destruct (view_functions ep ctx db) as [[r0 d] | e] eqn:Hv.
  - intros [= <- _]. now apply (views_answer_json ep ctx db d).
  - destruct (handle_user_exception (current_app ctx) e) as [rv | e'] eqn:Hh;
      cbn [bind].
    + intros [= <- _]. now apply (handlers_answer_json (current_app ctx) e).
    + rewrite flask_handle_exception_outcome.
      destruct (propagate_exceptions (current_app ctx)); [discriminate|].
      intros [= <- _]. reflexivity.
Qed.

End ResponseProperties.

(* ================================================================= *)
(** ** Further properties of the routes *)

(* ----------------------------------------------------------------- *)
(** *** Regions: lookup and deletion *)

Section RegionProperties.
Context {L : Libraries}.

(** The 404 page of [resource_not_found] for [abort(404, description=d)]. *)
Lemma not_found_page (app : App) (d : string) :
  handle_user_exception app (HTTPException NotFound d)
  = Ok (make_response
          (JObj [("error", JStr ("404 Not Found: " ++ d))]) 404).
Proof.
  unfold handle_user_exception, handle_http_exception, find_error_handler,
    error_handler_spec.
  destruct (error_handlers_imported app); reflexivity.
Qed.

Lemma regions_by_code_none (db : Db) (code : string) :
  ~ region_stored db code ->
  filter_by "region" Region_columns "NOC" (SText code) (Db_region db) = Ok [].
Proof.
  intros Hnone. unfold filter_by. simpl. f_equal. apply filter_none.
  intros r Hr. simpl. destruct (String.eqb_spec (Region_NOC r) code);
    [|reflexivity].
  exfalso. apply Hnone. now exists r.
Qed.

Lemma regions_by_code_one (db : Db) (r : Region) :
  region_codes_unique db -> In r (Db_region db) ->
  filter_by "region" Region_columns "NOC" (SText (Region_NOC r))
    (Db_region db) = Ok [r].
Proof.
  intros Hnd Hin. unfold filter_by. simpl. f_equal.
  apply (filter_unique_key Region_NOC _ (Db_region db) r Hnd Hin).
  intros y. simpl. apply String.eqb_eq.
Qed.

(** A view function that aborts with 404 is answered with the page of
    [resource_not_found]. *)
Lemma wsgi_app_not_found (ep : endpoint) (ctx : Ctx) (db : Db) (d : string) :
  view_functions ep ctx db = Raise (HTTPException NotFound d) ->
  wsgi_app ep ctx db
  = Responded
      (make_response (JObj [("error", JStr ("404 Not Found: " ++ d))]) 404)
      db.
Proof.
  intros Hview. unfold wsgi_app, full_dispatch_request.
  rewrite Hview, not_found_page. reflexivity.
Qed.

Lemma get_region_missing (code : string) (ctx : Ctx) (db : Db) :
  ~ region_stored db code ->
  get_region code ctx db = Raise (HTTPException NotFound "Region not found").
Proof.
  intros Hnone. unfold get_region.
  now rewrite (regions_by_code_none db code Hnone).
Qed.

Lemma get_region_found (r : Region) (ctx : Ctx) (db : Db) :
  region_codes_unique db -> In r (Db_region db) ->
  get_region (Region_NOC r) ctx db
  = Ok (jsonify (region_schema_dump r), db).
Proof.
  intros Hnd Hin. unfold get_region.
  now rewrite (regions_by_code_one db r Hnd Hin).
Qed.

(** X1: GET /regions/{code} for a code no region has: [get_region] catches
    [NoResultFound] and aborts, and the response is the 404 page with an
    [error] field. *)
Theorem get_region_unknown_code (code : string) (ctx : Ctx) (db : Db) :
  ~ region_stored db code ->
  wsgi_app (GET_region code) ctx db
  = Responded
      (make_response
         (JObj [("error", JStr "404 Not Found: Region not found")]) 404)
      db.
Proof.
  intros Hnone.
  apply (wsgi_app_not_found (GET_region code) ctx db "Region not found").
  now apply get_region_missing.
Qed.

(** X2: GET /regions/{code} for a stored region: 200 with the dumped region. *)
Theorem get_region_known_code (r : Region) (ctx : Ctx) (db : Db) :
  region_codes_unique db -> In r (Db_region db) ->
  wsgi_app (GET_region (Region_NOC r)) ctx db
  = Responded (jsonify (region_schema_dump r)) db.
Proof.
  intros Hnd Hin. apply wsgi_app_ok. now apply get_region_found.
Qed.

(** X3: DELETE /regions/{code}, past the guard, for a code no region has: the
    [except] clause answers 404 with a message, and nothing is deleted. *)
Theorem delete_region_unknown_code (code : string) (ctx : Ctx) (db : Db)
    (uid : Z) :
  authenticate ctx = inr uid ->
  ~ region_stored db code ->
  wsgi_app (DELETE_region code) ctx db
  = Responded
      (make_response (message ("Region " ++ code ++ " not found")) 404) db.
Proof.
  intros Hauth Hnone.
  rewrite (guarded_response (DELETE_region code) ctx db db
             (make_response (message ("Region " ++ code ++ " not found")) 404)
             eq_refl).
  - now rewrite Hauth.
  - cbn [body_of]. unfold delete_region.
    rewrite (regions_by_code_none db code Hnone). reflexivity.
Qed.

(** X4: DELETE /regions/{code}, past the guard, for a stored region that no
    event refers to: 200 with the message; the region is gone, so that a
    GET of the same code is a 404 afterwards; exactly the regions with
    another code are kept, and events and users are untouched. *)
Theorem delete_region_known_code (r : Region) (ctx : Ctx) (db : Db)
    (uid : Z) :
  authenticate ctx = inr uid ->
  region_codes_unique db -> In r (Db_region db) ->
  referenced db (Region_NOC r) = false ->
  exists db',
    wsgi_app (DELETE_region (Region_NOC r)) ctx db
    = Responded
        (jsonify (message ("Region " ++ Region_NOC r ++ " deleted."))) db'
    /\ (forall ctx',
          wsgi_app (GET_region (Region_NOC r)) ctx' db'
          = Responded
              (make_response
                 (JObj [("error", JStr "404 Not Found: Region not found")])
                 404) db')
    /\ (forall r',
          In r' (Db_region db')
          <-> In r' (Db_region db) /\ Region_NOC r' <> Region_NOC r)
    /\ Db_event db' = Db_event db
    /\ Db_user db' = Db_user db.
Proof.
  intros Hauth Hnd Hin Hfree.
  set (db' := set_regions db
                (filter (fun r' => negb (Region_NOC r' =? Region_NOC r)%string)
                   (Db_region db))).
  assert (Hkept : forall r',
             In r' (Db_region db')
             <-> In r' (Db_region db) /\ Region_NOC r' <> Region_NOC r).
  { intros r'. cbn [db' set_regions Db_region]. rewrite filter_In.
    rewrite negb_true_iff, String.eqb_neq. reflexivity. }
  exists db'. split; [|split; [|split; [exact Hkept | split; reflexivity]]].
  - rewrite (guarded_response (DELETE_region (Region_NOC r)) ctx db db'
               (jsonify (message ("Region " ++ Region_NOC r ++ " deleted.")))
               eq_refl).
    + now rewrite Hauth.
    + cbn [body_of]. unfold delete_region.
      rewrite (regions_by_code_one db r Hnd Hin).
      cbn [bind scalar_one]. unfold delete_region_row. rewrite Hfree.
      reflexivity.
  - intros ctx'.
    apply (wsgi_app_not_found (GET_region (Region_NOC r)) ctx' _
             "Region not found").
    apply get_region_missing. intros (r' & Hr' & Hcode).
    apply Hkept in Hr'. tauto.
Qed.

(** X26: DELETE /regions/{code}, past the guard, for a stored region that
    has events: the flush tries to set the [NOC] of those events to NULL,
    which the NOT NULL column refuses; the [except] clause answers 404
    "not found" although the region is stored, and nothing is deleted. *)
Theorem delete_region_with_events (r : Region) (ctx : Ctx) (db : Db)
    (uid : Z) :
  authenticate ctx = inr uid ->
  region_codes_unique db -> In r (Db_region db) ->
  referenced db (Region_NOC r) = true ->
  wsgi_app (DELETE_region (Region_NOC r)) ctx db
  = Responded
      (make_response (message ("Region " ++ Region_NOC r ++ " not found"))
         404) db.
Proof.
  intros Hauth Hnd Hin Hused.
  rewrite (guarded_response (DELETE_region (Region_NOC r)) ctx db db
             (make_response
                (message ("Region " ++ Region_NOC r ++ " not found")) 404)
             eq_refl).
  - now rewrite Hauth.
  - cbn [body_of]. unfold delete_region.
    rewrite (regions_by_code_one db r Hnd Hin).
    cbn [bind scalar_one]. unfold delete_region_row. rewrite Hused.
    reflexivity.
Qed.

End RegionProperties.

Lemma get_region_unknown_code_witness :
  wsgi_app (L := simple_libraries) (GET_region "ZZZ") anonymous one_event_db
  = Responded
      (make_response
         (JObj [("error", JStr "404 Not Found: Region not found")]) 404)
      one_event_db.
Proof.
  apply (get_region_unknown_code (L := simple_libraries) "ZZZ" anonymous
           one_event_db).
  intros (r & [<- | []] & Hr). discriminate Hr.
Defined.

Lemma get_region_known_code_witness :
  wsgi_app (L := simple_libraries) (GET_region "ITA") anonymous one_event_db
  = Responded (jsonify (JObj [("NOC", JStr "ITA")])) one_event_db.
Proof.
  apply (get_region_known_code (L := simple_libraries) italy anonymous
           one_event_db).
  - repeat constructor. intros [].
  - left. reflexivity.
Defined.

Lemma delete_region_unknown_code_witness :
  wsgi_app (L := simple_libraries) (DELETE_region "ZZZ") (authorized NoJson)
    one_event_db
  = Responded (make_response (message "Region ZZZ not found") 404)
      one_event_db.
Proof.
  apply (delete_region_unknown_code (L := simple_libraries) "ZZZ"
           (authorized NoJson) one_event_db 1 eq_refl).
  intros (r & [<- | []] & Hr). discriminate Hr.
Defined.

Lemma delete_region_known_code_witness :
  exists db',
    wsgi_app (L := simple_libraries) (DELETE_region "NEW")
      (authorized NoJson) (set_regions one_event_db [italy; new_region])
    = Responded (jsonify (message "Region NEW deleted.")) db'
    /\ Db_region db' = [italy].
Proof.
  destruct (delete_region_known_code (L := simple_libraries) new_region
              (authorized NoJson)
              (set_regions one_event_db [italy; new_region]) 1 eq_refl)
    as (db' & Hdelete & _ & Hkept & _).
  - repeat constructor; simpl; intuition discriminate.
  - right. left. reflexivity.
  - reflexivity.
  - exists db'. split; [exact Hdelete|].
    injection Hdelete as <-. reflexivity.
Defined.

Lemma delete_region_with_events_witness :
  wsgi_app (L := simple_libraries) (DELETE_region "ITA") (authorized NoJson)
    one_event_db
  = Responded (make_response (message "Region ITA not found") 404)
      one_event_db.
Proof.
  apply (delete_region_with_events (L := simple_libraries) italy
           (authorized NoJson) one_event_db 1 eq_refl).
  - repeat constructor. intros [].
  - left. reflexivity.
  - reflexivity.
Defined.

(* ----------------------------------------------------------------- *)
(** *** Events: deletion and PATCH *)

Section EventProperties.
Context {L : Libraries}.

Lemma event_int_id_matches (n : Z) (e : Event) :
  sql_eq (of_opt_int (Event_id e)) (SInt n) = true <-> Event_id e = Some n.
Proof.
  destruct (Event_id e) as [m|]; simpl.
  - rewrite Z.eqb_eq. split; congruence.
  - split; discriminate.
Qed.

Lemma events_by_id_none (db : Db) (n : Z) :
  ~ event_stored db n ->
  filter_by "event" Event_columns "id" (SInt n) (Db_event db) = Ok [].
Proof.
  intros Hnone. unfold filter_by. simpl. f_equal. apply filter_none.
  intros e He.
  destruct (sql_eq (of_opt_int (Event_id e)) (SInt n)) eqn:Heq;
    [|reflexivity].
  exfalso. apply Hnone. exists e. split; [exact He|].
  now apply event_int_id_matches.
Qed.

Lemma events_by_id_one (db : Db) (e : Event) (n : Z) :
  event_ids_unique db -> In e (Db_event db) -> Event_id e = Some n ->
  filter_by "event" Event_columns "id" (SInt n) (Db_event db) = Ok [e].
Proof.
  intros Hnd Hin He. unfold filter_by. simpl. f_equal.
  apply (filter_unique_key Event_id _ (Db_event db) e Hnd Hin).
  intros y. rewrite (event_int_id_matches n y). now rewrite He.
Qed.

Lemma delete_event_missing (n : Z) (ctx : Ctx) (db : Db) :
  ~ event_stored db n -> delete_event n ctx db = Raise NoResultFound.
Proof.
  intros Hnone. unfold delete_event.
  now rewrite (events_by_id_none db n Hnone).
Qed.

(** X5: DELETE /events/{id}, past the guard, for an id that the route
    accepts and SQLite can bind (digits only, below [2 ^ 63]) and that no
    event has: [scalar_one] raises [NoResultFound] and nothing catches it,
    so the request ends like any unhandled exception (a JSON 500, or a
    propagated exception under testing or debugging) and nothing is
    deleted. *)
Theorem delete_event_unknown_id (n : Z) (ctx : Ctx) (db : Db) (uid : Z) :
  authenticate ctx = inr uid ->
  0 <= n < 2 ^ 63 ->
  ~ event_stored db n ->
  delete_event n ctx db = Raise NoResultFound
  /\ wsgi_app (DELETE_event n) ctx db
     = if propagate_exceptions (current_app ctx)
       then Propagated (no_attribute NoResultFound "get_response")
       else Responded
              (json_error InternalServerError
                 internal_server_error_description) db.
Proof.
  intros Hauth Hrange Hnone.
  assert (Hbody : delete_event n ctx db = Raise NoResultFound)
    by now apply delete_event_missing.
  split; [exact Hbody|].
  apply wsgi_app_unhandled; [|reflexivity|reflexivity].
  cbn [view_functions]. unfold token_required. now rewrite Hauth.
Qed.

Lemma kept_after_delete (db : Db) (e e' : Event) (n : Z) :
  Event_id e = Some n ->
  In e' (Db_event (delete_event_row db e))
  <-> In e' (Db_event db) /\ Event_id e' <> Some n.
Proof.
  intros He. cbn [delete_event_row set_events Db_event]. rewrite filter_In.
  rewrite He, negb_true_iff. cbn [of_opt_int].
  destruct (Event_id e') as [m|]; simpl.
  - rewrite Z.eqb_neq. split; intros [Hin Hne]; split; congruence.
  - split; intros [Hin _]; split; auto; discriminate.
Qed.

(** X6: DELETE /events/{id}, past the guard, for a stored event: 200 with the
    message; exactly the events with another id are kept, the regions and
    the users are untouched, and a second DELETE of the id finds nothing. *)
Theorem delete_event_known_id (e : Event) (n : Z) (ctx : Ctx) (db : Db)
    (uid : Z) :
  authenticate ctx = inr uid ->
  event_ids_unique db -> In e (Db_event db) -> Event_id e = Some n ->
  wsgi_app (DELETE_event n) ctx db
  = Responded (jsonify (message ("Event " ++ str_of_int n ++ " deleted.")))
      (delete_event_row db e)
  /\ (forall e',
        In e' (Db_event (delete_event_row db e))
        <-> In e' (Db_event db) /\ Event_id e' <> Some n)
  /\ Db_region (delete_event_row db e) = Db_region db
  /\ Db_user (delete_event_row db e) = Db_user db
  /\ delete_event n ctx (delete_event_row db e) = Raise NoResultFound.
Proof.
  intros Hauth Hnd Hin He. split; [|split; [|split; [|split]]].
  - rewrite (guarded_response (DELETE_event n) ctx db (delete_event_row db e)
               (jsonify (message ("Event " ++ str_of_int n ++ " deleted.")))
               eq_refl).
    + now rewrite Hauth.
    + cbn [body_of]. unfold delete_event.
      rewrite (events_by_id_one db e n Hnd Hin He). reflexivity.
  - intros e'. now apply kept_after_delete.
  - reflexivity.
  - reflexivity.
  - apply delete_event_missing.
    intros (e' & Hin' & He').
    apply (kept_after_delete db e e' n He) in Hin'. tauto.
Qed.

(** X7: PATCH /events/{id} never updates anything: without a token it is
    refused, and past the guard the lookup raises before the request body
    is read, whatever the id, the body and the store. *)
Theorem event_update_changes_nothing (event_id : string) (ctx : Ctx)
    (db : Db) :
  exists msg,
    wsgi_app (PATCH_event event_id) ctx db
    = match authenticate ctx with
      | inl err => Responded (unauthorized err) db
      | inr _ =>
          if propagate_exceptions (current_app ctx)
          then Propagated
                 (no_attribute (InvalidRequestError msg) "get_response")
          else Responded
                 (json_error InternalServerError
                    internal_server_error_description) db
      end.
Proof.
  eexists. destruct (authenticate ctx) as [err | uid] eqn:Hauth.
  - apply wsgi_app_ok. cbn [view_functions]. unfold token_required.
    now rewrite Hauth.
  - apply wsgi_app_unhandled; [|reflexivity|reflexivity].
    cbn [view_functions]. unfold token_required. rewrite Hauth.
    reflexivity.
Qed.

End EventProperties.

Lemma delete_event_unknown_id_witness :
  wsgi_app (L := simple_libraries) (DELETE_event 999) (authorized NoJson)
    one_event_db
  = Responded
      (json_error InternalServerError internal_server_error_description)
      one_event_db.
Proof.
  apply (delete_event_unknown_id (L := simple_libraries) 999
           (authorized NoJson) one_event_db 1 eq_refl).
  - lia.
  - intros (e & [<- | []] & He). discriminate He.
Defined.

Lemma delete_event_known_id_witness :
  wsgi_app (L := simple_libraries) (DELETE_event 33) (authorized NoJson)
    one_event_db
  = Responded (jsonify (message "Event 33 deleted."))
      (delete_event_row one_event_db rome_1960).
Proof.
  apply (delete_event_known_id (L := simple_libraries) rome_1960 33
           (authorized NoJson) one_event_db 1 eq_refl).
  - repeat constructor. intros [].
  - left. reflexivity.
  - reflexivity.
Defined.

(* ----------------------------------------------------------------- *)
(** *** Creating and updating regions and events *)

Section CreationProperties.
Context {L : Libraries}.

(** What a guarded view that raises a validation error comes to. *)
Lemma validation_error_outcome (ep : endpoint) (ctx : Ctx) (db : Db)
    (messages : json) :
  view_functions ep ctx db = Raise (ValidationError messages) ->
  wsgi_app ep ctx db
  = if error_handlers_imported (current_app ctx)
    then Responded (make_response messages 400) db
    else if propagate_exceptions (current_app ctx)
         then Propagated
                (no_attribute (ValidationError messages) "get_response")
         else Responded
                (json_error InternalServerError
                   internal_server_error_description) db.
Proof.
  intros Hview. unfold wsgi_app, full_dispatch_request. rewrite Hview.
  unfold handle_user_exception, find_error_handler, error_handler_spec.
  destruct (error_handlers_imported (current_app ctx)); cbn.
  - reflexivity.
  - apply flask_handle_exception_outcome.
Qed.

(** X8: POST /regions and POST /events, past the guard, with a document the
    schema rejects: the messages of the validation error come back with
    status 400 when [error_handlers.py] is registered, the request ends as
    an unhandled exception when it is not, and nothing is stored. *)
Theorem rejected_document_400 (ctx : Ctx) (db : Db) (j messages : json)
    (uid : Z) :
  authenticate ctx = inr uid ->
  has_json ctx j ->
  (region_schema_load j None false = Raise (ValidationError messages) ->
   wsgi_app POST_regions ctx db
   = if error_handlers_imported (current_app ctx)
     then Responded (make_response messages 400) db
     else if propagate_exceptions (current_app ctx)
          then Propagated
                 (no_attribute (ValidationError messages) "get_response")
          else Responded
                 (json_error InternalServerError
                    internal_server_error_description) db)
  /\ (event_schema_load j None false = Raise (ValidationError messages) ->
      wsgi_app POST_events ctx db
      = if error_handlers_imported (current_app ctx)
        then Responded (make_response messages 400) db
        else if propagate_exceptions (current_app ctx)
             then Propagated
                    (no_attribute (ValidationError messages) "get_response")
             else Responded
                    (json_error InternalServerError
                       internal_server_error_description) db).
Proof.
  intros Hauth Hj. unfold has_json in Hj.
  split; intros Hload; apply validation_error_outcome;
    cbn [view_functions]; unfold token_required; rewrite Hauth;
    unfold add_region, add_event, region_load_instance, event_load_instance,
      get_json;
    rewrite Hj; cbn [bind]; now rewrite Hload.
Qed.

(** A region whose code is not stored passes the constraints. *)
Lemma insert_region_new (db : Db) (r : Region) :
  ~ region_stored db (Region_NOC r) ->
  insert_region db r = Ok (set_regions db (Db_region db ++ [r])).
Proof.
  intros Hnew.
  assert (Hex : existsb (fun r' => stored_eq (SText (Region_NOC r'))
                                     (SText (Region_NOC r))) (Db_region db)
                = false).
  { apply not_true_is_false. intros Hex. apply existsb_exists in Hex.
    destruct Hex as (r' & Hin & Heq). apply Hnew. exists r'.
    split; [exact Hin | now apply String.eqb_eq]. }
  unfold insert_region, check_constraints, violates_not_null,
    violates_unique.
  simpl in *. destruct (Region_notes r); simpl; rewrite Hex; reflexivity.
Qed.

Lemma codes_unique_after_insert (db : Db) (r : Region) :
  region_codes_unique db -> ~ region_stored db (Region_NOC r) ->
  region_codes_unique (set_regions db (Db_region db ++ [r])).
Proof.
  intros Hnd Hnew. unfold region_codes_unique. cbn [set_regions Db_region].
  apply NoDup_snoc; [exact Hnd|].
  intros y Hy Heq. apply Hnew. now exists y.
Qed.

(** The lookup by primary key that the schema makes before it builds an
    object. *)
Lemma stored_region_none (db : Db) (code : string) :
  ~ region_stored db code -> stored_region db code = None.
Proof.
  intros Hnone. unfold stored_region.
  destruct (find (fun r => (Region_NOC r =? code)%string) (Db_region db))
    as [r|] eqn:Hfind; [|reflexivity].
  exfalso. apply Hnone. apply find_some in Hfind. exists r.
  split; [tauto | now apply String.eqb_eq].
Qed.

Lemma stored_region_some (db : Db) (r : Region) :
  region_codes_unique db -> In r (Db_region db) ->
  stored_region db (Region_NOC r) = Some r.
Proof.
  unfold region_codes_unique, stored_region.
  induction (Db_region db) as [|a l IH]; simpl; intros Hnd Hin;
    [contradiction|].
  inversion Hnd as [|? ? Hnotin Hnd']; subst.
  destruct Hin as [-> | Hin]; [now rewrite String.eqb_refl|].
  destruct (Region_NOC a =? Region_NOC r)%string eqn:Heq; [|now apply IH].
  exfalso. apply Hnotin. apply String.eqb_eq in Heq. rewrite Heq.
  now apply in_map.
Qed.

(** X9: POST /regions, past the guard, with a document the schema loads into a
    region whose code is new: 200 with the message, and a GET of that code
    returns the region afterwards. *)
Theorem add_region_then_get (ctx ctx' : Ctx) (db : Db) (j : json)
    (r : Region) (uid : Z) :
  authenticate ctx = inr uid ->
  has_json ctx j ->
  region_schema_load j None false = Ok r ->
  region_codes_unique db ->
  ~ region_stored db (Region_NOC r) ->
  wsgi_app POST_regions ctx db
  = Responded (jsonify (message ("Region added with NOC= " ++ Region_NOC r)))
      (set_regions db (Db_region db ++ [r]))
  /\ wsgi_app (GET_region (Region_NOC r)) ctx'
       (set_regions db (Db_region db ++ [r]))
     = Responded (jsonify (region_schema_dump r))
         (set_regions db (Db_region db ++ [r])).
Proof.
  intros Hauth Hj Hload Hnd Hnew. unfold has_json in Hj. split.
  - rewrite (guarded_response POST_regions ctx db
               (set_regions db (Db_region db ++ [r]))
               (jsonify (message ("Region added with NOC= " ++ Region_NOC r)))
               eq_refl).
    + now rewrite Hauth.
    + cbn [body_of]. unfold add_region, get_json. rewrite Hj. cbn [bind].
      unfold region_load_instance. rewrite Hload. cbn [bind].
      rewrite (stored_region_none db _ Hnew). cbn [bind commit_region].
      now rewrite (insert_region_new db r Hnew).
  - apply wsgi_app_ok. apply get_region_found.
    + now apply codes_unique_after_insert.
    + cbn [set_regions Db_region]. apply in_or_app. right. now left.
Qed.

(** The constraints of [region] on a row whose code no listed row has. *)
Lemma check_region_new (rows : list Region) (r : Region) :
  (forall r', In r' rows -> Region_NOC r' <> Region_NOC r) ->
  check_constraints Region_columns rows r = Ok tt.
Proof.
  intros Hnew.
  assert (Hex : existsb (fun r' => stored_eq (SText (Region_NOC r'))
                                     (SText (Region_NOC r))) rows = false).
  { apply not_true_is_false. intros Hex. apply existsb_exists in Hex.
    destruct Hex as (r' & Hin & Heq). apply (Hnew r' Hin).
    now apply String.eqb_eq. }
  unfold check_constraints, violates_not_null, violates_unique.
  simpl in *. destruct (Region_notes r); simpl; rewrite Hex; reflexivity.
Qed.

(** An UPDATE that keeps the code of the row succeeds and writes the row
    where it stands. *)
Lemma update_region_same_code (db : Db) (old new : Region) :
  Region_NOC new = Region_NOC old ->
  update_region db old new
  = Ok (set_regions db
          (map (fun r => if (Region_NOC r =? Region_NOC old)%string
                         then new else r) (Db_region db))).
Proof.
  intros Hcode. unfold update_region.
  rewrite check_region_new.
  - cbn [bind]. rewrite Hcode, String.eqb_refl. cbn [negb].
    now rewrite andb_false_r.
  - intros r' Hr'. apply filter_In in Hr'. destruct Hr' as [_ Hne].
    rewrite Hcode. now apply String.eqb_neq, negb_true_iff.
Qed.

(** The table after such an UPDATE: the same codes in the same order, the
    new row under the code of the old one, the other rows as they were. *)
Lemma updated_table (rows : list Region) (old new : Region) :
  Region_NOC new = Region_NOC old ->
  let rows' := map (fun r => if (Region_NOC r =? Region_NOC old)%string
                             then new else r) rows in
  map Region_NOC rows' = map Region_NOC rows
  /\ (In old rows -> In new rows')
  /\ (forall r', Region_NOC r' <> Region_NOC old ->
        (In r' rows' <-> In r' rows)).
Proof.
  intros Hcode rows'. unfold rows'. split; [|split].
  - rewrite map_map. apply map_ext. intros r.
    destruct (String.eqb_spec (Region_NOC r) (Region_NOC old)); congruence.
  - intros Hin. apply in_map_iff. exists old. now rewrite String.eqb_refl.
  - intros r' Hne. rewrite in_map_iff. split.
    + intros (y & Hy & Hin).
      destruct (String.eqb_spec (Region_NOC y) (Region_NOC old));
        subst; [congruence | exact Hin].
    + intros Hin. exists r'.
      destruct (String.eqb_spec (Region_NOC r') (Region_NOC old));
        [contradiction | now split].
Qed.

(** A document that names a stored region is loaded onto that region,
    whether or not an instance was passed. *)
Lemma load_onto_stored (db : Db) (j : json) (loaded old new : Region)
    (partial : bool) :
  region_codes_unique db -> In old (Db_region db) ->
  region_schema_load j None partial = Ok loaded ->
  Region_NOC loaded = Region_NOC old ->
  region_schema_load j (Some old) partial = Ok new ->
  region_load_instance db j None partial = Ok (new, Some old).
Proof.
  intros Hnd Hin Hloaded Hsame Hnew. unfold region_load_instance.
  rewrite Hloaded. cbn [bind]. rewrite Hsame.
  rewrite (stored_region_some db old Hnd Hin). now rewrite Hnew.
Qed.

(** X10: POST /regions, past the guard, with a document that names a stored
    region: the schema loads the document onto the stored region and the
    commit is an UPDATE.  The answer is 200 with the message of an
    addition, no region is added, the stored region has the values of the
    document (a GET of the code returns them) and the other regions are
    as they were. *)
Theorem add_region_stored_code_updates (ctx ctx' : Ctx) (db : Db) (j : json)
    (loaded old new : Region) (uid : Z) :
  authenticate ctx = inr uid ->
  has_json ctx j ->
  region_codes_unique db -> In old (Db_region db) ->
  region_schema_load j None false = Ok loaded ->
  Region_NOC loaded = Region_NOC old ->
  region_schema_load j (Some old) false = Ok new ->
  Region_NOC new = Region_NOC old ->
  exists db',
    wsgi_app POST_regions ctx db
    = Responded
        (jsonify (message ("Region added with NOC= " ++ Region_NOC new))) db'
    /\ wsgi_app (GET_region (Region_NOC old)) ctx' db'
       = Responded (jsonify (region_schema_dump new)) db'
    /\ map Region_NOC (Db_region db') = map Region_NOC (Db_region db)
    /\ (forall r', Region_NOC r' <> Region_NOC old ->
          (In r' (Db_region db') <-> In r' (Db_region db)))
    /\ Db_event db' = Db_event db /\ Db_user db' = Db_user db.
Proof.
  intros Hauth Hj Hnd Hin Hloaded Hsame Hnew Hcode. unfold has_json in Hj.
  destruct (updated_table (Db_region db) old new Hcode)
    as (Hcodes & Hthere & Hothers).
  exists (set_regions db
            (map (fun r => if (Region_NOC r =? Region_NOC old)%string
                           then new else r) (Db_region db))).
  split; [|split; [|split; [|split; [|split]]]].
  - rewrite (guarded_response POST_regions ctx db
               (set_regions db
                  (map (fun r => if (Region_NOC r =? Region_NOC old)%string
                                 then new else r) (Db_region db)))
               (jsonify
                  (message ("Region added with NOC= " ++ Region_NOC new)))
               eq_refl).
    + now rewrite Hauth.
    + cbn [body_of]. unfold add_region, get_json. rewrite Hj. cbn [bind].
      rewrite (load_onto_stored db j loaded old new false Hnd Hin Hloaded
                 Hsame Hnew).
      cbn [bind commit_region].
      rewrite (update_region_same_code db old new Hcode). reflexivity.
  - replace (GET_region (Region_NOC old)) with (GET_region (Region_NOC new))
      by now rewrite Hcode.
    apply wsgi_app_ok. apply get_region_found.
    + unfold region_codes_unique. cbn [set_regions Db_region].
      now rewrite Hcodes.
    + cbn [set_regions Db_region]. now apply Hthere.
  - exact Hcodes.
  - exact Hothers.
  - reflexivity.
  - reflexivity.
Qed.

End CreationProperties.

Section UpdateProperties.
Context {L : Libraries}.

(** X11: PATCH /regions/{code}, past the guard, for a stored region and a
    document the schema loads onto it without changing the code: 200 with
    the message; a GET of the code returns the loaded region afterwards,
    and the regions with another code are the ones there were. *)
Theorem region_update_then_get (ctx ctx' : Ctx) (db : Db) (j : json)
    (old new : Region) (uid : Z) :
  authenticate ctx = inr uid ->
  has_json ctx j ->
  region_codes_unique db -> In old (Db_region db) ->
  region_schema_load j (Some old) true = Ok new ->
  Region_NOC new = Region_NOC old ->
  exists db',
    wsgi_app (PATCH_region (Region_NOC old)) ctx db
    = Responded
        (jsonify (message ("Region " ++ Region_NOC old ++ " updated."))) db'
    /\ wsgi_app (GET_region (Region_NOC old)) ctx' db'
       = Responded (jsonify (region_schema_dump new)) db'
    /\ (forall r', Region_NOC r' <> Region_NOC old ->
          (In r' (Db_region db') <-> In r' (Db_region db)))
    /\ Db_event db' = Db_event db /\ Db_user db' = Db_user db.
Proof.
  intros Hauth Hj Hnd Hin Hload Hcode. unfold has_json in Hj.
  destruct (updated_table (Db_region db) old new Hcode)
    as (Hcodes & Hthere & Hothers).
  exists (set_regions db
            (map (fun r => if (Region_NOC r =? Region_NOC old)%string
                           then new else r) (Db_region db))).
  split; [|split; [|split; [|split]]].
  - rewrite (guarded_response (PATCH_region (Region_NOC old)) ctx db
               (set_regions db
                  (map (fun r => if (Region_NOC r =? Region_NOC old)%string
                                 then new else r) (Db_region db)))
               (jsonify
                  (message ("Region " ++ Region_NOC old ++ " updated.")))
               eq_refl).
    + now rewrite Hauth.
    + cbn [body_of]. unfold region_update, get_json.
      rewrite (regions_by_code_one db old Hnd Hin).
      cbn [bind scalar_one_or_none]. rewrite Hj. cbn [bind].
      unfold region_load_instance. rewrite Hload. cbn [bind commit_region].
      rewrite (update_region_same_code db old new Hcode). reflexivity.
  - replace (GET_region (Region_NOC old)) with (GET_region (Region_NOC new))
      by now rewrite Hcode.
    apply wsgi_app_ok. apply get_region_found.
    + unfold region_codes_unique. cbn [set_regions Db_region].
      now rewrite Hcodes.
    + cbn [set_regions Db_region]. now apply Hthere.
  - exact Hothers.
  - reflexivity.
  - reflexivity.
Qed.

(** X12: PATCH /regions/{code} for a code no region has is no 404: the schema
    loads the document into a new region, which is inserted. *)
Theorem region_update_unknown_code_inserts (code : string) (ctx : Ctx)
    (db : Db) (j : json) (new : Region) (uid : Z) :
  authenticate ctx = inr uid ->
  has_json ctx j ->
  ~ region_stored db code ->
  region_schema_load j None true = Ok new ->
  ~ region_stored db (Region_NOC new) ->
  wsgi_app (PATCH_region code) ctx db
  = Responded (jsonify (message ("Region " ++ code ++ " updated.")))
      (set_regions db (Db_region db ++ [new])).
Proof.
  intros Hauth Hj Hnone Hload Hnew. unfold has_json in Hj.
  rewrite (guarded_response (PATCH_region code) ctx db
             (set_regions db (Db_region db ++ [new]))
             (jsonify (message ("Region " ++ code ++ " updated.")))
             eq_refl).
  - now rewrite Hauth.
  - cbn [body_of]. unfold region_update, get_json.
    rewrite (regions_by_code_none db code Hnone).
    cbn [bind scalar_one_or_none]. rewrite Hj. cbn [bind].
    unfold region_load_instance. rewrite Hload. cbn [bind].
    rewrite (stored_region_none db _ Hnew). cbn [bind commit_region].
    now rewrite (insert_region_new db new Hnew).
Qed.

(** X27: PATCH /regions/{code} for a code no region has, with a document
    that names a stored region: the schema loads the document onto that
    region and the commit updates it, under the message that names the
    code of the URL; no region gets that code. *)
Theorem region_update_names_stored_code (code : string) (ctx ctx' : Ctx)
    (db : Db) (j : json) (loaded old new : Region) (uid : Z) :
  authenticate ctx = inr uid ->
  has_json ctx j ->
  ~ region_stored db code ->
  region_codes_unique db -> In old (Db_region db) ->
  region_schema_load j None true = Ok loaded ->
  Region_NOC loaded = Region_NOC old ->
  region_schema_load j (Some old) true = Ok new ->
  Region_NOC new = Region_NOC old ->
  exists db',
    wsgi_app (PATCH_region code) ctx db
    = Responded (jsonify (message ("Region " ++ code ++ " updated."))) db'
    /\ wsgi_app (GET_region (Region_NOC old)) ctx' db'
       = Responded (jsonify (region_schema_dump new)) db'
    /\ map Region_NOC (Db_region db') = map Region_NOC (Db_region db)
    /\ ~ region_stored db' code.
Proof.
  intros Hauth Hj Hnone Hnd Hin Hloaded Hsame Hnew Hcode.
  unfold has_json in Hj.
  destruct (updated_table (Db_region db) old new Hcode)
    as (Hcodes & Hthere & Hothers).
  exists (set_regions db
            (map (fun r => if (Region_NOC r =? Region_NOC old)%string
                           then new else r) (Db_region db))).
  split; [|split; [|split]].
  - rewrite (guarded_response (PATCH_region code) ctx db
               (set_regions db
                  (map (fun r => if (Region_NOC r =? Region_NOC old)%string
                                 then new else r) (Db_region db)))
               (jsonify (message ("Region " ++ code ++ " updated.")))
               eq_refl).
    + now rewrite Hauth.
    + cbn [body_of]. unfold region_update, get_json.
      rewrite (regions_by_code_none db code Hnone).
      cbn [bind scalar_one_or_none]. rewrite Hj. cbn [bind].
      rewrite (load_onto_stored db j loaded old new true Hnd Hin Hloaded
                 Hsame Hnew).
      cbn [bind commit_region].
      rewrite (update_region_same_code db old new Hcode). reflexivity.
  - replace (GET_region (Region_NOC old)) with (GET_region (Region_NOC new))
      by now rewrite Hcode.
    apply wsgi_app_ok. apply get_region_found.
    + unfold region_codes_unique. cbn [set_regions Db_region].
      now rewrite Hcodes.
    + cbn [set_regions Db_region]. now apply Hthere.
  - exact Hcodes.
  - intros (r' & Hr' & Hr'code). apply Hnone.
    assert (Hcodein : In code (map Region_NOC (Db_region db))).
    { rewrite <- Hcodes. rewrite <- Hr'code.
      cbn [set_regions Db_region] in Hr'. now apply in_map. }
    apply in_map_iff in Hcodein. destruct Hcodein as (y & Hy & Hyin).
    now exists y.
Qed.

End UpdateProperties.

Section EventCreationProperties.
Context {L : Libraries}.

(** The key given to a new row is above every key in use. *)
Lemma next_id_fresh (ids : list Z) (i : Z) : In i ids -> i < next_id ids.
Proof.
  unfold next_id. destruct ids as [|a ids]; [contradiction|].
  revert a i. induction ids as [|b ids IH]; simpl; intros a i.
  - intros [-> | []]. lia.
  - intros [-> | [-> | Hin]].
    + pose proof (IH i i (or_introl eq_refl)). lia.
    + lia.
    + pose proof (IH a i (or_intror Hin)). lia.
Qed.

(** [EventSchema] builds no event from a document. *)
Lemma event_load_never_builds (j : json) (partial : bool) (e : Event) :
  event_load_instance j None partial <> Ok e.
Proof.
  unfold event_load_instance, event_make_instance.
  destruct (event_schema_load j None partial) as [data | err]; cbn [bind];
    [|discriminate].
  destruct (Event_id data); discriminate.
Qed.

(** [add_event] raises on every request. *)
Lemma add_event_raises (ctx : Ctx) (db : Db) :
  exists e, add_event ctx db = Raise e.
Proof.
  unfold add_event. destruct (get_json ctx) as [j | e]; cbn [bind];
    [|now exists e].
  destruct (event_load_instance j None false) as [ev | e] eqn:Hload;
    [|now exists e].
  now apply event_load_never_builds in Hload.
Qed.


(** What a request whose view function raises comes to, when it is
    answered: an error status, and the store as it was. *)
Lemma raised_outcome (ep : endpoint) (ctx : Ctx) (db db' : Db) (e : exn)
    (r : Response) :
  view_functions ep ctx db = Raise e ->
  wsgi_app ep ctx db = Responded r db' ->
  db' = db /\ 400 <= status r.
Proof.
  intros Hview Hrun. unfold wsgi_app, full_dispatch_request in Hrun.
  rewrite Hview in Hrun.
  destruct (handle_user_exception (current_app ctx) e) as [rv | e'] eqn:Hh;
    cbn [bind] in Hrun.
  - injection Hrun as <- <-. split; [reflexivity|].
    unfold handle_user_exception, handle_http_exception, find_error_handler,
      error_handler_spec in Hh.
    destruct e as [h d| | | | | |messages| | | | |];
      try destruct h;
      destruct (error_handlers_imported (current_app ctx));
      cbn in Hh; try discriminate Hh;
      injection Hh as <-; cbn; lia.
  - rewrite flask_handle_exception_outcome in Hrun.
    destruct (propagate_exceptions (current_app ctx)); [discriminate|].
    injection Hrun as <- <-. split; [reflexivity | cbn; lia].
Qed.

(** X14: POST /events stores nothing and never answers with a success
    status, whatever the request and the store: the guard refuses with
    401, and past the guard [add_event] raises, for want of a JSON body,
    on a document the schema rejects, and on a document it accepts
    alike. *)
Theorem add_event_stores_nothing (ctx : Ctx) (db db' : Db) (r : Response) :
  wsgi_app POST_events ctx db = Responded r db' ->
  db' = db /\ 400 <= status r.
Proof.
  intros Hrun.
  destruct (authenticate ctx) as [err | uid] eqn:Hauth.
  - assert (Hview : view_functions POST_events ctx db
                    = Ok (unauthorized err, db))
      by (cbn [view_functions]; unfold token_required; now rewrite Hauth).
    rewrite (wsgi_app_ok _ _ _ _ _ Hview) in Hrun.
    injection Hrun as <- <-. split; [reflexivity | cbn; lia].
  - destruct (add_event_raises ctx db) as [e He].
    apply (raised_outcome POST_events ctx db db' e r); [|exact Hrun].
    cbn [view_functions]. unfold token_required. now rewrite Hauth.
Qed.

End EventCreationProperties.

Lemma rejected_document_400_witness :
  wsgi_app (L := simple_libraries) POST_regions
    (authorized (Json new_region_json)) one_event_db
  = Responded
      (make_response (JObj [("_schema", JStr "Invalid input type.")]) 400)
      one_event_db.
Proof.
  destruct (rejected_document_400 (L := simple_libraries)
              (authorized (Json new_region_json)) one_event_db
              new_region_json (JObj [("_schema", JStr "Invalid input type.")])
              1 eq_refl eq_refl) as [Hregion _].
  apply Hregion. reflexivity.
Defined.

Lemma add_region_then_get_witness :
  wsgi_app (L := loading_libraries) POST_regions
    (authorized (Json new_region_json)) one_event_db
  = Responded (jsonify (message "Region added with NOC= NEW"))
      (set_regions one_event_db [italy; new_region])
  /\ wsgi_app (L := loading_libraries) (GET_region "NEW") anonymous
       (set_regions one_event_db [italy; new_region])
     = Responded (jsonify (JObj [("NOC", JStr "NEW")]))
         (set_regions one_event_db [italy; new_region]).
Proof.
  apply (add_region_then_get (L := loading_libraries)
           (authorized (Json new_region_json)) anonymous one_event_db
           new_region_json new_region 1 eq_refl eq_refl eq_refl).
  - repeat constructor. intros [].
  - intros (r & [<- | []] & Hr). discriminate Hr.
Defined.

Lemma add_region_stored_code_updates_witness :
  exists db',
    wsgi_app (L := loading_libraries) POST_regions
      (authorized (Json (JObj [("NOC", JStr "ITA");
                               ("region", JStr "Italia")])))
      one_event_db
    = Responded (jsonify (message "Region added with NOC= ITA")) db'
    /\ Db_region db'
       = [{| Region_NOC := "ITA"; Region_region := "Italia";
             Region_notes := None |}].
Proof.
  destruct (add_region_stored_code_updates (L := loading_libraries)
              (authorized (Json (JObj [("NOC", JStr "ITA");
                                       ("region", JStr "Italia")])))
              anonymous one_event_db
              (JObj [("NOC", JStr "ITA"); ("region", JStr "Italia")])
              {| Region_NOC := "ITA"; Region_region := "Italia";
                 Region_notes := None |}
              italy
              {| Region_NOC := "ITA"; Region_region := "Italia";
                 Region_notes := None |} 1 eq_refl eq_refl)
    as (db' & Hpost & _).
  - repeat constructor. intros [].
  - left. reflexivity.
  - reflexivity.
  - reflexivity.
  - reflexivity.
  - reflexivity.
  - exists db'. split; [exact Hpost|].
    injection Hpost as <-. reflexivity.
Defined.

Lemma region_update_then_get_witness :
  exists db',
    wsgi_app (L := loading_libraries) (PATCH_region "ITA")
      (authorized (Json (JObj [("region", JStr "Italia")]))) one_event_db
    = Responded (jsonify (message "Region ITA updated.")) db'
    /\ wsgi_app (L := loading_libraries) (GET_region "ITA") anonymous db'
       = Responded (jsonify (JObj [("NOC", JStr "ITA")])) db'.
Proof.
  destruct (region_update_then_get (L := loading_libraries)
              (authorized (Json (JObj [("region", JStr "Italia")])))
              anonymous one_event_db (JObj [("region", JStr "Italia")])
              italy
              {| Region_NOC := "ITA"; Region_region := "Italia";
                 Region_notes := None |} 1 eq_refl eq_refl)
    as (db' & Hpatch & Hget & _).
  - repeat constructor. intros [].
  - left. reflexivity.
  - reflexivity.
  - reflexivity.
  - exists db'. split; [exact Hpatch | exact Hget].
Defined.

Lemma region_update_unknown_code_inserts_witness :
  wsgi_app (L := loading_libraries) (PATCH_region "NEW")
    (authorized (Json new_region_json)) one_event_db
  = Responded (jsonify (message "Region NEW updated."))
      (set_regions one_event_db [italy; new_region]).
Proof.
  apply (region_update_unknown_code_inserts (L := loading_libraries) "NEW"
           (authorized (Json new_region_json)) one_event_db new_region_json
           new_region 1 eq_refl eq_refl).
  - intros (r & [<- | []] & Hr). discriminate Hr.
  - reflexivity.
  - intros (r & [<- | []] & Hr). discriminate Hr.
Defined.

Lemma region_update_names_stored_code_witness :
  exists db',
    wsgi_app (L := loading_libraries) (PATCH_region "XXX")
      (authorized (Json (JObj [("NOC", JStr "ITA");
                               ("region", JStr "Italia")])))
      one_event_db
    = Responded (jsonify (message "Region XXX updated.")) db'
    /\ Db_region db'
       = [{| Region_NOC := "ITA"; Region_region := "Italia";
             Region_notes := None |}].
Proof.
  destruct (region_update_names_stored_code (L := loading_libraries) "XXX"
              (authorized (Json (JObj [("NOC", JStr "ITA");
                                       ("region", JStr "Italia")])))
              anonymous one_event_db
              (JObj [("NOC", JStr "ITA"); ("region", JStr "Italia")])
              {| Region_NOC := "ITA"; Region_region := "Italia";
                 Region_notes := None |}
              italy
              {| Region_NOC := "ITA"; Region_region := "Italia";
                 Region_notes := None |} 1 eq_refl eq_refl)
    as (db' & Hpatch & _).
  - intros (r & [<- | []] & Hr). discriminate Hr.
  - repeat constructor. intros [].
  - left. reflexivity.
  - reflexivity.
  - reflexivity.
  - reflexivity.
  - reflexivity.
  - exists db'. split; [exact Hpatch|].
    injection Hpatch as <-. reflexivity.
Defined.


Lemma add_event_stores_nothing_witness :
  wsgi_app (L := simple_libraries) POST_events (authorized NoJson)
    one_event_db
  = Responded (json_error UnsupportedMediaType not_json_description)
      one_event_db
  /\ 400 <= 415.
Proof.
  split; [reflexivity|].
  apply (add_event_stores_nothing (L := simple_libraries)
           (authorized NoJson) one_event_db one_event_db
           (json_error UnsupportedMediaType not_json_description)
           eq_refl).
Defined.

(* ----------------------------------------------------------------- *)
(** *** The application as a whole *)

Section ApplicationProperties.
Context {L : Libraries}.

(** A property of the store that every view function keeps is kept by
    every request: the guard, the error handlers and Flask's last resort
    return the store they got. *)
Lemma wsgi_app_invariant (P : Db -> Prop) :
  (forall ep ctx db r db', body_of ep ctx db = Ok (r, db') -> P db -> P db') ->
  forall ep ctx db r db',
    wsgi_app ep ctx db = Responded r db' -> P db -> P db'.
Proof.
  intros Hbody ep ctx db r db' Hrun HP.
  assert (Hview : forall r0 d, view_functions ep ctx db = Ok (r0, d) -> P d).
  { intros r0 d Hv. destruct (protected ep) eqn:Hp.
    - replace (view_functions ep) with (token_required (body_of ep)) in Hv
        by (destruct ep; try discriminate; reflexivity).
      unfold token_required in Hv. destruct (authenticate ctx).
      + injection Hv as _ <-. exact HP.
      + now apply (Hbody ep ctx db r0 d).
    - replace (view_functions ep) with (body_of ep) in Hv
        by (destruct ep; try discriminate; reflexivity).
      now apply (Hbody ep ctx db r0 d). }
  unfold wsgi_app, full_dispatch_request in Hrun.
  destruct (view_functions ep ctx db) as [[r0 d] | e] eqn:Hv.
  - injection Hrun as _ <-. now apply (Hview r0).
  - destruct (handle_user_exception (current_app ctx) e) as [rv | e'];
      cbn [bind] in Hrun.
    + injection Hrun as _ <-. exact HP.
    + rewrite flask_handle_exception_outcome in Hrun.
      destruct (propagate_exceptions (current_app ctx)); [discriminate|].
      injection Hrun as _ <-. exact HP.
Qed.

Lemma distinct_keys_filtered {R K : Type} (rows : list R) (key : R -> K)
    (keep : R -> bool) (Hdistinct : NoDup (map key rows)) :
  NoDup (map key (filter keep rows)).
Proof.
  revert Hdistinct. induction rows as [|row rows IH]; simpl; intros Hnd;
    [constructor|].
  inversion Hnd as [|? ? Hnotin Hnd']; subst.
  destruct (keep row); [|now apply IH].
  simpl. constructor; [|now apply IH].
  intros Hin. apply Hnotin. apply in_map_iff in Hin.
  destruct Hin as (y & Hy & Hyin). apply filter_In in Hyin.
  apply in_map_iff. exists y. tauto.
Qed.

Lemma region_check_keeps_codes (rows : list Region) (r : Region) :
  check_constraints Region_columns rows r = Ok tt ->
  NoDup (map Region_NOC rows) ->
  NoDup (map Region_NOC (rows ++ [r])).
Proof.
  intros Hcheck Hnd. apply NoDup_snoc; [exact Hnd|].
  intros y Hy Heq.
  pose proof (check_constraints_unique Region_columns rows r
                (mapped_column "NOC" (fun r => SText (Region_NOC r))
                   true false false)
                Hcheck (or_introl eq_refl) eq_refl y Hy) as Hne.
  simpl in Hne. apply String.eqb_neq in Hne. contradiction.
Qed.

Lemma insert_region_keys (db db' : Db) (r : Region) :
  insert_region db r = Ok db' ->
  Db_event db' = Db_event db
  /\ (region_codes_unique db -> region_codes_unique db').
Proof.
  unfold insert_region. intros H. invert_run.
  split; [reflexivity|]. unfold region_codes_unique.
  cbn [set_regions Db_region].
  match goal with
  | E : check_constraints _ _ _ = Ok ?t |- _ =>
      destruct t; now apply region_check_keeps_codes
  end.
Qed.

(** A row replaced where it stands by a row whose code no other row
    has. *)
Lemma replaced_codes_distinct (rows : list Region) (old new : Region) :
  NoDup (map Region_NOC rows) ->
  (forall r, In r rows -> Region_NOC r <> Region_NOC old ->
     Region_NOC r <> Region_NOC new) ->
  NoDup (map Region_NOC
           (map (fun r => if (Region_NOC r =? Region_NOC old)%string
                          then new else r) rows)).
Proof.
  induction rows as [|a l IH]; simpl; intros Hnd Hnew; [constructor|].
  inversion Hnd as [|? ? Hnotin Hnd']; subst.
  assert (Hrest : forall r, In r l -> Region_NOC r <> Region_NOC old ->
                    Region_NOC r <> Region_NOC new)
    by (intros r Hr; apply Hnew; now right).
  constructor; [|now apply IH].
  intros Hin. apply in_map_iff in Hin. destruct Hin as (z & Hz & Hzin).
  apply in_map_iff in Hzin. destruct Hzin as (y & <- & Hyin).
  destruct (String.eqb_spec (Region_NOC a) (Region_NOC old)) as [Ha | Ha];
    destruct (String.eqb_spec (Region_NOC y) (Region_NOC old)) as [Hy | Hy].
  - apply Hnotin. rewrite Ha, <- Hy. now apply in_map.
  - now apply (Hrest y Hyin Hy).
  - apply (Hnew a (or_introl eq_refl) Ha). now symmetry.
  - apply Hnotin. rewrite <- Hz. now apply in_map.
Qed.

Lemma update_region_keys (db db' : Db) (old new : Region) :
  update_region db old new = Ok db' ->
  Db_event db' = Db_event db
  /\ (region_codes_unique db -> region_codes_unique db').
Proof.
  unfold update_region. intros H. cbv zeta in H. invert_run.
  split; [reflexivity|]. unfold region_codes_unique.
  cbn [set_regions Db_region]. intros Hnd.
  apply replaced_codes_distinct; [exact Hnd|].
  intros r Hr Hne.
  match goal with
  | E : check_constraints _ ?others _ = Ok ?t |- _ =>
      destruct t;
      pose proof (check_constraints_unique Region_columns others new
                    (mapped_column "NOC" (fun r => SText (Region_NOC r))
                       true false false)
                    E (or_introl eq_refl) eq_refl r) as Hfree
  end.
  simpl in Hfree. apply String.eqb_neq. apply Hfree.
  apply filter_In. split; [exact Hr|].
  now apply negb_true_iff, String.eqb_neq.
Qed.

Lemma insert_user_keys (db db' : Db) (email password_hash : sqlval)
    (u : User) :
  insert_user db email password_hash = Ok (u, db') ->
  Db_region db' = Db_region db /\ Db_event db' = Db_event db.
Proof. unfold insert_user. intros H. invert_run. split; reflexivity. Qed.

Lemma delete_region_row_keys (db db' : Db) (r : Region) :
  delete_region_row db r = Ok db' ->
  Db_event db' = Db_event db
  /\ (region_codes_unique db -> region_codes_unique db').
Proof.
  unfold delete_region_row. intros H. invert_run.
  split; [reflexivity|]. unfold region_codes_unique.
  cbn [set_regions Db_region]. intros Hnd.
  now apply distinct_keys_filtered.
Qed.

Lemma commit_region_keys (db db' : Db) (r : Region)
    (loaded_onto : option Region) :
  commit_region db r loaded_onto = Ok db' ->
  Db_event db' = Db_event db
  /\ (region_codes_unique db -> region_codes_unique db').
Proof.
  destruct loaded_onto as [old|]; cbn [commit_region].
  - apply update_region_keys.
  - apply insert_region_keys.
Qed.

(** Every view function keeps the primary keys distinct. *)
Lemma views_keep_keys (ep : endpoint) (ctx : Ctx) (db db' : Db)
    (r : Response) :
  body_of ep ctx db = Ok (r, db') ->
  region_codes_unique db /\ event_ids_unique db ->
  region_codes_unique db' /\ event_ids_unique db'.
Proof.
  intros H [Hr He]. destruct ep; cbn [body_of] in H.
  - unfold get_regions in H. invert_run. now split.
  - unfold get_region in H. invert_run. now split.
  - unfold get_events in H. invert_run. now split.
  - unfold get_event in H. invert_run. now split.
  - exfalso. unfold add_event in H.
    destruct (get_json ctx) as [j|]; cbn [bind] in H; [|discriminate H].
    destruct (event_load_instance j None false) as [ev|] eqn:Hload;
      [|discriminate H].
    now apply event_load_never_builds in Hload.
  - unfold add_region in H. invert_run.
    match goal with
    | E : commit_region _ _ _ = Ok _ |- _ =>
        destruct (commit_region_keys _ _ _ _ E) as [Hsame Hkeep]
    end.
    split; [now apply Hkeep|].
    unfold event_ids_unique. now rewrite Hsame.
  - unfold delete_event in H. invert_run. split; [exact Hr|].
    unfold event_ids_unique. cbn [delete_event_row set_events Db_event].
    now apply distinct_keys_filtered.
  - unfold delete_region in H. invert_run; try (now split).
    match goal with
    | E : delete_region_row _ _ = Ok _ |- _ =>
        destruct (delete_region_row_keys _ _ _ E) as [Hsame Hkeep]
    end.
    split; [now apply Hkeep|].
    unfold event_ids_unique. now rewrite Hsame.
  - exfalso. unfold event_update, filter_by in H. simpl in H. discriminate H.
  - unfold region_update in H. invert_run.
    match goal with
    | E : commit_region _ _ _ = Ok _ |- _ =>
        destruct (commit_region_keys _ _ _ _ E) as [Hsame Hkeep]
    end.
    split; [now apply Hkeep|].
    unfold event_ids_unique. now rewrite Hsame.
  - unfold register in H. invert_run; try (now split).
    match goal with
    | E : insert_user _ _ _ = Ok _ |- _ =>
        destruct (insert_user_keys _ _ _ _ _ E) as [Hsr Hse]
    end.
    unfold region_codes_unique, event_ids_unique. rewrite Hsr, Hse.
    now split.
  - unfold login in H. invert_run; now split.
Qed.

(** X15: The primary keys of [region] and [event] stay distinct: every request
    that gets a response leaves a store with no two regions of one code
    and no two events of one id, if it started from one. *)
Theorem primary_keys_unique (ep : endpoint) (ctx : Ctx) (db db' : Db)
    (r : Response) :
  wsgi_app ep ctx db = Responded r db' ->
  region_codes_unique db -> event_ids_unique db ->
  region_codes_unique db' /\ event_ids_unique db'.
Proof.
  intros Hrun Hr He.
  apply (wsgi_app_invariant
           (fun d => region_codes_unique d /\ event_ids_unique d)
           (fun ep0 ctx0 d0 r0 d1 => views_keep_keys ep0 ctx0 d0 d1 r0)
           ep ctx db r db' Hrun).
  now split.
Qed.

End ApplicationProperties.

Section RequestShapeProperties.
Context {L : Libraries}.

(** The store a request leaves is the one it got or the one its view
    function returned. *)
Lemma responded_store (ep : endpoint) (ctx : Ctx) (db db' : Db)
    (r : Response) :
  wsgi_app ep ctx db = Responded r db' ->
  db' = db \/ exists r0, body_of ep ctx db = Ok (r0, db').
Proof.
  intros Hrun. unfold wsgi_app, full_dispatch_request in Hrun.
  destruct (view_functions ep ctx db) as [[r0 d] | e] eqn:Hv.
  - injection Hrun as _ <-. destruct (protected ep) eqn:Hp.
    + replace (view_functions ep) with (token_required (body_of ep)) in Hv
        by (destruct ep; try discriminate; reflexivity).
      unfold token_required in Hv. destruct (authenticate ctx).
      * injection Hv as _ <-. now left.
      * right. now exists r0.
    + replace (view_functions ep) with (body_of ep) in Hv
        by (destruct ep; try discriminate; reflexivity).
      right. now exists r0.
  - destruct (handle_user_exception (current_app ctx) e) as [rv | e'];
      cbn [bind] in Hrun.
    + injection Hrun as _ <-. now left.
    + rewrite flask_handle_exception_outcome in Hrun.
      destruct (propagate_exceptions (current_app ctx)); [discriminate|].
      injection Hrun as _ <-. now left.
Qed.

(** X16: The four GET routes and POST /login never change the store. *)
Theorem reading_routes_change_nothing (ep : endpoint) (ctx : Ctx)
    (db db' : Db) (r : Response) :
  protected ep = false \/ ep = POST_login ->
  wsgi_app ep ctx db = Responded r db' ->
  db' = db.
Proof.
  intros Hep Hrun.
  destruct (responded_store ep ctx db db' r Hrun) as [Hsame | [r0 Hbody]];
    [exact Hsame|].
  destruct Hep as [Hp | ->].
  - destruct ep; try discriminate Hp; cbn [body_of] in Hbody;
      unfold get_regions, get_region, get_events, get_event in Hbody;
      invert_run; reflexivity.
  - cbn [body_of] in Hbody. unfold login in Hbody. invert_run; reflexivity.
Qed.

(** X17: The GET routes read neither the authorization nor the body of the
    request, nor the clock: two requests to the same application get the
    same answer. *)
Theorem get_routes_ignore_request (ep : endpoint) (ctx ctx' : Ctx) (db : Db) :
  protected ep = false ->
  current_app ctx = current_app ctx' ->
  wsgi_app ep ctx db = wsgi_app ep ctx' db.
Proof.
  intros Hp Happ. unfold wsgi_app, full_dispatch_request.
  destruct ep; try discriminate Hp; cbn [view_functions];
    unfold get_regions, get_region, get_events, get_event;
    rewrite ?Happ; reflexivity.
Qed.

(** X18: An HTTP error raised by a view function is answered in JSON with the
    status code of the error, and the store is unchanged. *)
Theorem http_error_status (ep : endpoint) (ctx : Ctx) (db : Db)
    (h : http_error) (d : string) :
  view_functions ep ctx db = Raise (HTTPException h d) ->
  exists r,
    wsgi_app ep ctx db = Responded r db
    /\ status r = http_code h
    /\ is_json r = true.
Proof.
  intros Hview. unfold wsgi_app, full_dispatch_request. rewrite Hview.
  unfold handle_user_exception, handle_http_exception, find_error_handler,
    error_handler_spec.
  destruct (error_handlers_imported (current_app ctx)), h; cbn;
    eexists; repeat split.
Qed.

(** [repr(user)] raises for every user: [__repr__] reads [self.username],
    and [User] has no such attribute. *)
Lemma User_repr_raises (u : User) :
  User_repr u
  = Raise (AttributeError "'User' object has no attribute 'username'").
Proof. reflexivity. Qed.

End RequestShapeProperties.

Lemma reading_routes_change_nothing_witness :
  match wsgi_app (L := simple_libraries) POST_login
          (authorized (credentials "tester@mytesting.com"
                         "PlainTextPassword"))
          one_user_db with
  | Responded _ db' => db' = one_user_db
  | Propagated _ => True
  end.
Proof.
  destruct (wsgi_app (L := simple_libraries) POST_login
              (authorized (credentials "tester@mytesting.com"
                             "PlainTextPassword"))
              one_user_db) as [r db' | e] eqn:Hrun; [|exact I].
  apply (reading_routes_change_nothing (L := simple_libraries) POST_login
           _ _ _ r (or_intror eq_refl) Hrun).
Defined.

Lemma get_routes_ignore_request_witness :
  wsgi_app (L := simple_libraries) (GET_event "33") anonymous one_event_db
  = wsgi_app (L := simple_libraries) (GET_event "33")
      (authorized (Json (JObj []))) one_event_db.
Proof.
  apply (get_routes_ignore_request (L := simple_libraries) (GET_event "33"));
    reflexivity.
Defined.

Lemma http_error_status_witness :
  exists r,
    wsgi_app (L := simple_libraries) POST_register
      (authorized (BadJson "Expecting value")) one_user_db
    = Responded r one_user_db
    /\ status r = 400 /\ is_json r = true.
Proof.
  apply (http_error_status (L := simple_libraries) POST_register
           (authorized (BadJson "Expecting value")) one_user_db BadRequest
           "The browser (or proxy) sent a request that this server could not understand.").
  reflexivity.
Defined.

(* ----------------------------------------------------------------- *)
(** *** Accounts: edge cases and composition *)

Section AccountEdgeProperties.
Context {L : Libraries}.

(** A new email and a new hash pass the constraints of [user]; the row
    gets the next id. *)
Lemma insert_user_new (db : Db) (email h : string) :
  ~ email_registered db email ->
  (forall v, In v (Db_user db) -> User_password_hash v <> h) ->
  insert_user db (SText email) (SText h)
  = Ok ({| User_id := next_id (map User_id (Db_user db));
           User_email := email; User_password_hash := h |},
        set_users db
          (Db_user db
           ++ [{| User_id := next_id (map User_id (Db_user db));
                  User_email := email; User_password_hash := h |}])).
Proof.
  intros Hemail Hhash. unfold insert_user.
  cbn [not_null_text text_affinity bind].
  set (u := {| User_id := next_id (map User_id (Db_user db));
               User_email := email; User_password_hash := h |}).
  assert (Hid : existsb (fun r' => stored_eq (SInt (User_id r'))
                                     (SInt (User_id u))) (Db_user db)
                = false).
  { apply not_true_is_false. intros Hex. apply existsb_exists in Hex.
    destruct Hex as (v & Hin & Heq). simpl in Heq. apply Z.eqb_eq in Heq.
    pose proof (next_id_fresh (map User_id (Db_user db)) (User_id v)
                  (in_map User_id _ _ Hin)). lia. }
  assert (He : existsb (fun r' => stored_eq (SText (User_email r'))
                                    (SText (User_email u))) (Db_user db)
               = false).
  { apply not_true_is_false. intros Hex. apply existsb_exists in Hex.
    destruct Hex as (v & Hin & Heq). apply Hemail. exists v.
    split; [exact Hin | now apply String.eqb_eq]. }
  assert (Hh : existsb (fun r' => stored_eq (SText (User_password_hash r'))
                                    (SText (User_password_hash u)))
                 (Db_user db) = false).
  { apply not_true_is_false. intros Hex. apply existsb_exists in Hex.
    destruct Hex as (v & Hin & Heq). apply (Hhash v Hin).
    now apply String.eqb_eq. }
  unfold check_constraints, violates_not_null, violates_unique.
  cbn [User_columns find col_value nullable primary_key unique negb andb orb
       is_null].
  rewrite Hid, He, Hh. reflexivity.
Qed.

(** X21: Register, then log in with the same credentials: when the email is
    new and the generated hash is not stored yet, POST /register answers
    201 and stores the user, and POST /login on the resulting store
    answers 201 with the id of that user and a token issued for it. *)
Theorem register_then_login (ctx ctx2 : Ctx) (db : Db)
    (email password : string) (uid uid2 : Z) :
  authenticate ctx = inr uid ->
  authenticate ctx2 = inr uid2 ->
  has_credentials ctx (JStr email) (JStr password) ->
  has_credentials ctx2 (JStr email) (JStr password) ->
  email <> "" -> password <> "" ->
  no_dollar (salt ctx) = true ->
  emails_unique db ->
  ~ email_registered db email ->
  (forall v, In v (Db_user db) ->
     User_password_hash v <> generate_password_hash (salt ctx) password) ->
  exists u db',
    User_id u = next_id (map User_id (Db_user db))
    /\ User_email u = email
    /\ Db_user db' = (Db_user db ++ [u])%list
    /\ wsgi_app POST_register ctx db
       = Responded (make_response (message "Successfully registered.") 201)
           db'
    /\ wsgi_app POST_login ctx2 db'
       = Responded
           (make_response
              (JObj [("user_id", JNum (User_id u));
                     ("token",
                      JStr (token_text
                              (encode_auth_token (current_app ctx2)
                                 (now ctx2) (User_id u))))]) 201)
           db'.
Proof.
  intros Hauth Hauth2 Hc Hc2 He Hp Hsalt Hnd Hnew Hhash.
  pose proof (insert_user_new db email
                (generate_password_hash (salt ctx) password) Hnew Hhash)
    as Hins.
  set (u := {| User_id := next_id (map User_id (Db_user db));
               User_email := email;
               User_password_hash :=
                 generate_password_hash (salt ctx) password |}) in *.
  set (db' := set_users db (Db_user db ++ [u])) in *.
  exists u, db'. split; [reflexivity|]. split; [reflexivity|].
  split; [reflexivity|]. split.
  - destruct (register_cases ctx db email (JStr password) Hc Hnd)
      as [_ Hreg].
    rewrite (guarded_response POST_register ctx db db'
               (make_response (message "Successfully registered.") 201)
               eq_refl).
    + now rewrite Hauth.
    + cbn [body_of]. rewrite (Hreg Hnew). cbn [set_password bind].
      now rewrite Hins.
  - assert (Hnd' : emails_unique db')
      by now apply (insert_user_keeps_unique _ _ _ _ _ Hins).
    assert (Hin : In u (Db_user db'))
      by (cbn [db' set_users Db_user]; apply in_or_app; right; now left).
    rewrite (guarded_response POST_login ctx2 db' db'
               (make_response
                  (JObj [("user_id", JNum (User_id u));
                         ("token",
                          JStr (token_text
                                  (encode_auth_token (current_app ctx2)
                                     (now ctx2) (User_id u))))]) 201)
               eq_refl).
    + now rewrite Hauth2.
    + cbn [body_of].
      rewrite (login_known_email ctx2 db' u password Hc2 He Hp Hnd' Hin).
      unfold check_password. cbn [u User_password_hash].
      rewrite (split_pwhash_generated (salt ctx) password Hsalt).
      rewrite (check_generated (salt ctx) password password Hsalt).
      now rewrite String.eqb_refl.
Qed.

(** X22: POST /register with a new email and a password that is missing or not
    a string: hashing raises inside the [try], the answer is the 500 of
    [register], and nothing is stored. *)
Theorem register_without_password (ctx : Ctx) (db : Db) (email : string)
    (password : json) (uid : Z) :
  authenticate ctx = inr uid ->
  has_credentials ctx (JStr email) password ->
  (forall s, password <> JStr s) ->
  emails_unique db ->
  ~ email_registered db email ->
  wsgi_app POST_register ctx db
  = Responded
      (make_response (message "An error occurred. Please try again.") 500)
      db.
Proof.
  intros Hauth Hc Hpw Hnd Hnew.
  destruct (register_cases ctx db email password Hc Hnd) as [_ Hreg].
  rewrite (guarded_response POST_register ctx db db
             (make_response (message "An error occurred. Please try again.")
                500) eq_refl).
  - now rewrite Hauth.
  - cbn [body_of]. rewrite (Hreg Hnew).
    destruct password; try reflexivity. now elim (Hpw s).
Qed.

(** X23: POST /register without an email: no stored user has a null email, so
    the insertion is tried and refused by the NOT NULL constraint; the
    answer is the 500 of [register], whatever the password. *)
Theorem register_without_email (ctx : Ctx) (db : Db) (password : json)
    (uid : Z) :
  authenticate ctx = inr uid ->
  has_credentials ctx JNull password ->
  wsgi_app POST_register ctx db
  = Responded
      (make_response (message "An error occurred. Please try again.") 500)
      db.
Proof.
  intros Hauth (fields & Hbody & Hemail & Hpassword).
  rewrite (guarded_response POST_register ctx db db
             (make_response (message "An error occurred. Please try again.")
                500) eq_refl).
  - now rewrite Hauth.
  - cbn [body_of]. unfold register, get_json. rewrite Hbody. cbn [bind].
    rewrite Hemail. cbn [bind bind_param]. unfold filter_by.
    cbn [column User_columns find col_name String.eqb Ascii.eqb Bool.eqb
         col_value].
    rewrite (filter_none _ (Db_user db)) by reflexivity.
    cbn [bind scalar_one_or_none]. rewrite Hpassword. cbn [bind].
    destruct (set_password (salt ctx) password) as [h | e];
      [reflexivity|].
    cbn [bind try_except]. now rewrite isinstance_Exception.
Qed.

(** X24: POST /login with a JSON body that is truthy but not an object (a
    non-empty array or string, a number, [true]): [auth.get] raises
    [AttributeError], and the request ends as an unhandled exception, not
    as a 401. *)
Theorem login_body_not_an_object (ctx : Ctx) (db : Db) (auth : json)
    (uid : Z) :
  authenticate ctx = inr uid ->
  has_json ctx auth ->
  truthy auth = true ->
  (forall fields, auth <> JObj fields) ->
  wsgi_app POST_login ctx db
  = if propagate_exceptions (current_app ctx)
    then Propagated
           (no_attribute (AttributeError "object has no attribute 'get'")
              "get_response")
    else Responded
           (json_error InternalServerError internal_server_error_description)
           db.
Proof.
  intros Hauth Hj Ht Hobj. unfold has_json in Hj.
  apply wsgi_app_unhandled; [|reflexivity|reflexivity].
  cbn [view_functions]. unfold token_required. rewrite Hauth.
  unfold login, get_json. rewrite Hj. cbn [bind]. rewrite Ht. cbn [negb].
  destruct auth; try reflexivity. now elim (Hobj fields).
Qed.

(** X25: POST /login with a password that is truthy but not a string: an
    unknown email is answered 401 as usual, but for a registered email
    whose stored hash is well formed the verification raises
    [AttributeError] and the request ends as an unhandled exception. *)
Theorem login_password_not_a_string (ctx : Ctx) (db : Db) (email : string)
    (password : json) (uid : Z) :
  authenticate ctx = inr uid ->
  has_credentials ctx (JStr email) password ->
  email <> "" ->
  truthy password = true ->
  (forall s, password <> JStr s) ->
  (~ email_registered db email ->
   wsgi_app POST_login ctx db = Responded incorrect_credentials db)
  /\ (forall u,
        emails_unique db -> In u (Db_user db) -> User_email u = email ->
        split_pwhash (User_password_hash u) <> None ->
        wsgi_app POST_login ctx db
        = if propagate_exceptions (current_app ctx)
          then Propagated
                 (no_attribute
                    (AttributeError "object has no attribute 'encode'")
                    "get_response")
          else Responded
                 (json_error InternalServerError
                    internal_server_error_description) db).
Proof.
  intros Hauth (fields & Hbody & Hemail & Hpassword) He Ht Hpw.
  assert (Hlogin : login ctx db
                   = (rows <- filter_by "user" User_columns "email"
                                (SText email) (Db_user db) ;;
                      user <- scalar_one_or_none rows ;;
                      match user with
                      | None => Ok (incorrect_credentials, db)
                      | Some u =>
                          ok <- check_password u password ;;
                          if negb ok then Ok (incorrect_credentials, db)
                          else Ok (make_response
                                     (JObj [("user_id", JNum (User_id u));
                                            ("token",
                                             JStr (token_text
                                                     (encode_auth_token
                                                        (current_app ctx)
                                                        (now ctx)
                                                        (User_id u))))])
                                     201, db)
                      end)).
  { unfold login, get_json. rewrite Hbody. cbn [bind].
    destruct fields as [|field fields]; [discriminate Hemail|].
    change (truthy (JObj (field :: fields))) with true. cbn [negb].
    rewrite Hemail. cbn [bind]. rewrite (truthy_JStr _ He). cbn [negb].
    rewrite Hpassword. cbn [bind]. rewrite Ht. reflexivity. }
  split.
  - intros Hnone.
    rewrite (guarded_response POST_login ctx db db incorrect_credentials
               eq_refl).
    + now rewrite Hauth.
    + cbn [body_of]. rewrite Hlogin.
      now rewrite (users_by_email_none _ _ Hnone).
  - intros u Hnd Hin Hu Hhash.
    apply wsgi_app_unhandled; [|reflexivity|reflexivity].
    cbn [view_functions]. unfold token_required. rewrite Hauth.
    rewrite Hlogin. subst email.
    rewrite (users_by_email_one _ _ Hnd Hin). cbn [bind scalar_one_or_none].
    unfold check_password.
    destruct (split_pwhash (User_password_hash u)); [|contradiction].
    destruct password; try reflexivity. now elim (Hpw s).
Qed.

End AccountEdgeProperties.

Lemma register_then_login_witness :
  exists db',
    wsgi_app (L := simple_libraries) POST_register
      (authorized (credentials "a@b.com" "Xy12345!")) one_user_db
    = Responded (make_response (message "Successfully registered.") 201) db'
    /\ wsgi_app (L := simple_libraries) POST_login
         (authorized (credentials "a@b.com" "Xy12345!")) db'
       = Responded
           (make_response
              (JObj [("user_id", JNum 2); ("token", JStr "2.secret:2:400")])
              201) db'.
Proof.
  assert (Hc : has_credentials
                 (authorized (credentials "a@b.com" "Xy12345!"))
                 (JStr "a@b.com") (JStr "Xy12345!"))
    by (eexists; repeat split; reflexivity).
  destruct (register_then_login (L := simple_libraries)
              (authorized (credentials "a@b.com" "Xy12345!"))
              (authorized (credentials "a@b.com" "Xy12345!"))
              one_user_db "a@b.com" "Xy12345!" 1 1 eq_refl eq_refl Hc Hc)
    as (u & db' & Hid & _ & _ & Hreg & Hlog).
  - discriminate.
  - discriminate.
  - reflexivity.
  - repeat constructor. intros [].
  - intros (v & [<- | []] & Hv). discriminate Hv.
  - intros v [<- | []]. discriminate.
  - exists db'. split; [exact Hreg|]. rewrite Hlog, Hid. reflexivity.
Defined.

Lemma register_without_password_witness :
  wsgi_app (L := simple_libraries) POST_register
    (authorized (Json (JObj [("email", JStr "a@b.com")]))) one_user_db
  = Responded
      (make_response (message "An error occurred. Please try again.") 500)
      one_user_db.
Proof.
  apply (register_without_password (L := simple_libraries)
           (authorized (Json (JObj [("email", JStr "a@b.com")])))
           one_user_db "a@b.com" JNull 1 eq_refl).
  - eexists. repeat split; reflexivity.
  - discriminate.
  - repeat constructor. intros [].
  - intros (v & [<- | []] & Hv). discriminate Hv.
Defined.

Lemma register_without_email_witness :
  wsgi_app (L := simple_libraries) POST_register
    (authorized (Json (JObj [("password", JStr "Xy12345!")]))) one_user_db
  = Responded
      (make_response (message "An error occurred. Please try again.") 500)
      one_user_db.
Proof.
  apply (register_without_email (L := simple_libraries)
           (authorized (Json (JObj [("password", JStr "Xy12345!")])))
           one_user_db (JStr "Xy12345!") 1 eq_refl).
  eexists. repeat split; reflexivity.
Defined.

Lemma login_body_not_an_object_witness :
  wsgi_app (L := simple_libraries) POST_login
    (authorized (Json (JArr [JStr "tester@mytesting.com"]))) one_user_db
  = Responded
      (json_error InternalServerError internal_server_error_description)
      one_user_db.
Proof.
  apply (login_body_not_an_object (L := simple_libraries)
           (authorized (Json (JArr [JStr "tester@mytesting.com"])))
           one_user_db (JArr [JStr "tester@mytesting.com"]) 1 eq_refl eq_refl
           eq_refl).
  discriminate.
Defined.

Lemma login_password_not_a_string_witness :
  wsgi_app (L := simple_libraries) POST_login
    (authorized (Json (JObj [("email", JStr "nobody@x.com");
                             ("password", JNum 5)]))) one_user_db
  = Responded incorrect_credentials one_user_db
  /\ wsgi_app (L := simple_libraries) POST_login
       (authorized (Json (JObj [("email", JStr "tester@mytesting.com");
                                ("password", JNum 5)]))) one_user_db
     = Responded
         (json_error InternalServerError internal_server_error_description)
         one_user_db.
Proof.
  split.
  - destruct (login_password_not_a_string (L := simple_libraries)
                (authorized (Json (JObj [("email", JStr "nobody@x.com");
                                         ("password", JNum 5)])))
                one_user_db "nobody@x.com" (JNum 5) 1 eq_refl)
      as [Hunknown _].
    + eexists. repeat split; reflexivity.
    + discriminate.
    + reflexivity.
    + discriminate.
    + apply Hunknown. intros (v & [<- | []] & Hv). discriminate Hv.
  - destruct (login_password_not_a_string (L := simple_libraries)
                (authorized (Json (JObj [("email",
                                          JStr "tester@mytesting.com");
                                         ("password", JNum 5)])))
                one_user_db "tester@mytesting.com" (JNum 5) 1 eq_refl)
      as [_ Hknown].
    + eexists. repeat split; reflexivity.
    + discriminate.
    + reflexivity.
    + discriminate.
    + apply (Hknown tester).
      * repeat constructor. intros [].
      * left. reflexivity.
      * reflexivity.
      * discriminate.
Defined.

Lemma primary_keys_unique_witness :
  region_codes_unique (set_regions one_event_db [italy; new_region])
  /\ event_ids_unique (set_regions one_event_db [italy; new_region]).
Proof.
  apply (primary_keys_unique (L := loading_libraries) POST_regions
           (authorized (Json new_region_json)) one_event_db
           (set_regions one_event_db [italy; new_region])
           (jsonify (message "Region added with NOC= NEW"))).
  - reflexivity.
  - repeat constructor. intros [].
  - repeat constructor. intros [].
Defined.

Lemma email_unique_witness :
  emails_unique
    (set_users one_user_db
       [tester;
        {| User_id := 2; User_email := "a@b.com";
           User_password_hash :=
             generate_password_hash (L := simple_libraries) "abc"
               "Xy12345!" |}]).
Proof.
  apply (email_unique (L := simple_libraries) POST_register
           (authorized (credentials "a@b.com" "Xy12345!")) one_user_db _
           (make_response (message "Successfully registered.") 201)).
  - repeat constructor. intros [].
  - reflexivity.
Defined.

Lemma responses_are_json_witness :
  is_json (make_response (message "Region ZZZ not found") 404) = true.
Proof.
  apply (responses_are_json (L := simple_libraries) (DELETE_region "ZZZ")
           (authorized NoJson) one_event_db one_event_db).
  reflexivity.
Defined.
